(** * The content-editable mixin of canvas-editor

    A shallow embedding of [addon/mixins/content-editable.js]: the handlers
    of one editable block ([input], [keyDown], [paste]), the model
    synchronisation [setBlockContentFromInput] and the observer
    [renderBlockContent], followed by the properties of the keyboard
    state machine and of the render-suppression flag.

    Conventions of the embedding.
    - A handler is a computation in the monad [M]: it reads and writes the
      component ([Session]), lists the effects it has on the outside world
      ([Effect]: event cancellation, DOM writes, host callbacks,
      [document.execCommand]) in the order they happen, and either returns
      or throws.
    - What a handler reads from the browser and from the collaborating
      mixins is the record [Env]; what the host does to the block while it
      handles a callback is the section variable [host].
    - A JavaScript number is an IEEE 754 binary64 ([spec_float] with a
      53-bit mantissa), with its rounding, infinities and NaN. *)

From Stdlib Require Import ZArith Ascii SpecFloat.
From stdpp Require Import base option list strings gmap.


(** ** Data *)

(** A number of the language: a double. *)
Definition number : Type := spec_float.

(** A [DOMRect], in viewport pixels. *)
Record Rect := {
  top : number;
  bottom : number;
  left : number;
  right : number
}.

(** A child node of the editable element; only its [nodeName] is read. *)
Record Node := {
  nodeName : string
}.

(** The editable element as the mixin sees it.  [innerText] is [None] on
    a browser that does not implement it; [clientRects] is the value of
    [getClientRects()], one rectangle per rendered line box. *)
Record Element := {
  childNodes : list Node;
  innerText : option string;
  textContent : string;
  clientRects : list Rect
}.

(** The result of [TextManipulation.getManipulation]. *)
Record TextSplit := {
  textBeforeSelection : string;
  textAfterSelection : string
}.

(** The block bound to the component.  [content] and [lastContent] are
    [None] while the property is undefined or null. *)
Record Block := {
  id : string;
  content : option string;
  lastContent : option string
}.

(** The component's own mutable state. *)
Record Session := {
  block : Block;
  isUpdatingBlockContent : bool
}.

(** What a handler consults besides the component: the element, the
    [Selection] mixin ([selection.isCollapsed], [currentRangeRect]) and the
    text-manipulation library. *)
Record Env := {
  element : Element;
  selection_isCollapsed : bool;
  currentRangeRect : option Rect;
  getManipulation : Element → TextSplit
}.

(** The fields of a keydown event that [keyDown] reads:
    [evt.originalEvent.key], [evt.originalEvent.keyCode], [evt.shiftKey]. *)
Record KeyEvent := {
  key : option string;
  keyCode : Z;
  shiftKey : bool
}.

(** A paste event: the clipboard, keyed by MIME type. *)
Record PasteEvent := {
  clipboardData : gmap string string
}.

(** The callbacks of the enclosing editor. *)
Inductive HostCall :=
  | OnBlockDeletedLocally (b : Block) (remainder : string)
  | OnNavigateLeft (b : Block)
  | OnNavigateRight (b : Block)
  | OnNavigateUp (b : Block) (r : Rect)
  | OnNavigateDown (b : Block) (r : Rect)
  | BlockContentUpdatedLocally
  | NewBlockInsertedLocally (text : string).

(** The two jQuery writes of [renderBlockContent]. *)
Inductive DomWrite :=
  | SetText (s : string)
  | SetHtml (markup : string).

Inductive Effect :=
  | EStopPropagation
  | EPreventDefault
  | EDom (w : DomWrite)
  | EHost (c : HostCall)
  | EExecCommand (name : string) (showUI : bool) (value : string).

Inductive JsError :=
  | TypeError.

(** The value switched on by [keyDown]: a key name or a numeric code. *)
Inductive KeyValue :=
  | KName (s : string)
  | KCode (n : Z).

#[global] Instance number_eq_dec : EqDecision number.
Proof. solve_decision. Defined.
#[global] Instance Rect_eq_dec : EqDecision Rect.
Proof. solve_decision. Defined.
#[global] Instance Block_eq_dec : EqDecision Block.
Proof. solve_decision. Defined.
#[global] Instance HostCall_eq_dec : EqDecision HostCall.
Proof. solve_decision. Defined.
#[global] Instance DomWrite_eq_dec : EqDecision DomWrite.
Proof. solve_decision. Defined.
#[global] Instance Effect_eq_dec : EqDecision Effect.
Proof. solve_decision. Defined.
#[global] Instance KeyValue_eq_dec : EqDecision KeyValue.
Proof. solve_decision. Defined.

(** ** The handler monad *)

Inductive Outcome (A : Type) :=
  | Returned (a : A) (s : Session)
  | Threw (e : JsError) (s : Session).
Arguments Returned {A} a s.
Arguments Threw {A} e s.

(** A computation maps the component's state to the effects performed and
    the way the call ended. *)
Definition M (A : Type) : Type := Session → list Effect * Outcome A.

#[global] Instance M_ret : MRet M := λ A a s, ([], Returned a s).

#[global] Instance M_bind : MBind M := λ A B f m s,
  match m s with
  | (tr, Returned a s1) =>
      match f a s1 with
      | (tr', o) => (tr ++ tr', o)
      end
  | (tr, Threw e s1) => (tr, Threw e s1)
  end.

Definition emit (e : Effect) : M unit := λ s, ([e], Returned () s).
Definition throw {A} (e : JsError) : M A := λ s, ([], Threw e s).
Definition gets {A} (f : Session → A) : M A := λ s, ([], Returned (f s) s).
Definition modify (f : Session → Session) : M unit :=
  λ s, ([], Returned () (f s)).

(** [when c m]: an [if (c) { m }] without else. *)
Definition when (c : bool) (m : M unit) : M unit :=
  if c then m else mret ().

(** ** Pure helpers *)

(** JavaScript truthiness of a string and of a possibly absent string. *)
Definition truthy (s : string) : bool := negb (bool_decide (s = "")).

Definition truthy_opt (o : option string) : bool :=
  match o with
  | Some s => truthy s
  | None => false
  end.

(** Arithmetic on doubles: the mantissa width and the exponent bound of
    binary64. *)
Definition prec : Z := 53.
Definition emax : Z := 1024.

(** The double nearest to [m * 2^e], and the double of an integer. *)
Definition dyadic (m e : Z) : number := binary_normalize prec emax m e false.
Definition numOf (n : Z) : number := dyadic n 0.

(** [a - b]: the difference, rounded to the nearest double. *)
Definition numSub (a b : number) : number := SFsub prec emax a b.

(** [a > b]: false when either side is NaN. *)
Definition numGt (a b : number) : bool := SFltb b a.

(** [text.replace(/\n$/, '')]: drops one line feed at the very end. *)
Fixpoint strip_final_newline (s : string) : string :=
  match s with
  | EmptyString => EmptyString
  | String c rest =>
      match rest with
      | EmptyString => if Ascii.eqb c "010"%char then EmptyString else s
      | String _ _ => String c (strip_final_newline rest)
      end
  end.

(** [getElementRect(side = 'top')]; the result is [None] where the
    indexed rectangle is undefined. *)
Definition getElementRect (el : Element) (side : string) : option Rect :=
  let rects := clientRects el in
  if bool_decide (side = "top") then rects !! 0%nat
  else match length rects with
       | O => None
       | S n => rects !! n
       end.

Definition firstChild (el : Element) : option Node := head (childNodes el).

(** [element.innerText || element.textContent] *)
Definition renderedText (el : Element) : string :=
  match innerText el with
  | Some t => if truthy t then t else textContent el
  | None => textContent el
  end.

(** [getElementText()]; [isFirefox] is the module constant computed from
    the user agent. *)
Definition getElementText (isFirefox : bool) (el : Element) : string :=
  if bool_decide (length (childNodes el) = 1%nat)
     && bool_decide (nodeName <$> firstChild el = Some "BR")
  then ""
  else
    let text := renderedText el in
    if isFirefox then strip_final_newline text else text.

(** [evt.originalEvent.key || evt.originalEvent.keyCode] *)
Definition keyValue (evt : KeyEvent) : KeyValue :=
  match key evt with
  | Some k => if truthy k then KName k else KCode (keyCode evt)
  | None => KCode (keyCode evt)
  end.

(** [clipboardData.getData(format)]: the empty string when the clipboard
    holds nothing for the format. *)
Definition getData (cd : gmap string string) (format : string) : string :=
  default "" (cd !! format).

(** ** The mixin *)

(** The three property writes of the mixin, as state updates. *)
Definition withUpdating (b : bool) (s : Session) : Session :=
  {| block := block s; isUpdatingBlockContent := b |}.

Definition withLastContent (v : option string) (s : Session) : Session :=
  {| block := {| id := id (block s);
                 content := content (block s);
                 lastContent := v |};
     isUpdatingBlockContent := isUpdatingBlockContent s |}.

Definition withContent (v : option string) (s : Session) : Session :=
  {| block := {| id := id (block s);
                 content := v;
                 lastContent := lastContent (block s) |};
     isUpdatingBlockContent := isUpdatingBlockContent s |}.

Definition set_isUpdatingBlockContent (b : bool) : M unit :=
  modify (withUpdating b).

Definition set_block_lastContent (v : option string) : M unit :=
  modify (withLastContent v).

(** Dereferencing a value whose property is read next: a [TypeError] when
    it is undefined. *)
Definition deref {A} (o : option A) : M A :=
  match o with
  | Some a => mret a
  | None => throw TypeError
  end.

(** [renderBlockContent], the observer of [block.content] that also runs
    on [didInsertElement]. *)
Definition renderBlockContent : M unit :=
  updating ← gets isUpdatingBlockContent;
  if (updating : bool) then mret ()
  else
    c ← gets (λ s, content (block s));
    if truthy_opt c
    then emit (EDom (SetText (default "" c)))
    else emit (EDom (SetHtml "<br>")).

(** The [didInsertElement] hook runs the same function. *)
Definition didInsertElement : M unit := renderBlockContent.

(** [set('block.content', v)].  Ember's [set] changes the property and
    notifies its observers, synchronously, only when the new value differs
    from the current one; the one observer here is [renderBlockContent]. *)
Definition set_block_content (v : option string) : M unit :=
  old ← gets (λ s, content (block s));
  if bool_decide (old = v) then mret ()
  else modify (withContent v);; renderBlockContent.

Section Component.

(** The values the host assigns to [block.content] while it handles a
    callback, in order (none for a host that only takes note). *)
Variable host : HostCall → list (option string).

(** The module constant [isFirefox]. *)
Variable isFirefox : bool.

Variable env : Env.

Fixpoint hostWrites (ws : list (option string)) : M unit :=
  match ws with
  | [] => mret ()
  | v :: ws' => set_block_content v;; hostWrites ws'
  end.

(** Invoking a callback of the host: the call itself, then what the host
    does to the block before it returns. *)
Definition callHost (c : HostCall) : M unit :=
  emit (EHost c);; hostWrites (host c).

Definition setBlockContentFromInput
    (newContent : string) (preventRerender : bool) : M unit :=
  when preventRerender (set_isUpdatingBlockContent true);;
  old ← gets (λ s, content (block s));
  set_block_lastContent old;;
  set_block_content (Some newContent);;
  when preventRerender (set_isUpdatingBlockContent false);;
  callHost BlockContentUpdatedLocally.

Definition input : M unit :=
  let text := getElementText isFirefox (element env) in
  setBlockContentFromInput text true.

Definition newBlockAtSplit : M unit :=
  let ts := getManipulation env (element env) in
  setBlockContentFromInput (textBeforeSelection ts) false;;
  callHost (NewBlockInsertedLocally (textAfterSelection ts)).

Definition backspace : M unit :=
  let ts := getManipulation env (element env) in
  if truthy (textBeforeSelection ts) || negb (selection_isCollapsed env)
  then mret ()
  else
    emit EStopPropagation;;
    emit EPreventDefault;;
    b ← gets block;
    callHost (OnBlockDeletedLocally b (textAfterSelection ts)).

Definition navigateDown : M unit :=
  lastRect ← deref (getElementRect (element env) "bottom");
  let contentBottom := bottom lastRect in
  rangeRect ← deref (currentRangeRect env);
  let distanceFromBottom := numSub contentBottom (bottom rangeRect) in
  if numGt distanceFromBottom (numOf 10)
  then mret ()
  else
    emit EStopPropagation;;
    emit EPreventDefault;;
    b ← gets block;
    callHost (OnNavigateDown b rangeRect).

Definition navigateLeft : M unit :=
  let ts := getManipulation env (element env) in
  if truthy (textBeforeSelection ts)
  then mret ()
  else
    emit EStopPropagation;;
    emit EPreventDefault;;
    b ← gets block;
    callHost (OnNavigateLeft b).

Definition navigateRight : M unit :=
  let ts := getManipulation env (element env) in
  if truthy (textAfterSelection ts)
  then mret ()
  else
    emit EStopPropagation;;
    emit EPreventDefault;;
    b ← gets block;
    callHost (OnNavigateRight b).

Definition navigateUp : M unit :=
  firstRect ← deref (getElementRect (element env) "top");
  let contentTop := top firstRect in
  rangeRect ← deref (currentRangeRect env);
  let distanceFromTop := numSub (top rangeRect) contentTop in
  if numGt distanceFromTop (numOf 10)
  then mret ()
  else
    emit EStopPropagation;;
    emit EPreventDefault;;
    b ← gets block;
    callHost (OnNavigateUp b rangeRect).

(** One [case] label pair of the switch in [keyDown]. *)
Definition isKey (name : string) (code : Z) (v : KeyValue) : bool :=
  bool_decide (v = KName name) || bool_decide (v = KCode code).

Definition keyDown (evt : KeyEvent) : M unit :=
  let v := keyValue evt in
  if isKey "ArrowLeft" 37 v then navigateLeft
  else if isKey "ArrowUp" 38 v then navigateUp
  else if isKey "ArrowRight" 39 v then navigateRight
  else if isKey "ArrowDown" 40 v then navigateDown
  else if isKey "Backspace" 8 v then backspace
  else if isKey "Enter" 13 v then
    if shiftKey evt then mret ()
    else
      emit EStopPropagation;;
      emit EPreventDefault;;
      newBlockAtSplit
  else mret ().

Definition paste (evt : PasteEvent) : M unit :=
  emit EPreventDefault;;
  let text := getData (clipboardData evt) "text/plain" in
  emit (EExecCommand "insertText" false text).

End Component.

(** ** Reading a run *)

Definition hostCalls (tr : list Effect) : list HostCall :=
  omap (λ e, match e with EHost c => Some c | _ => None end) tr.

Definition domWrites (tr : list Effect) : list DomWrite :=
  omap (λ e, match e with EDom w => Some w | _ => None end) tr.

Definition defaultSuppressed (tr : list Effect) : bool :=
  bool_decide (EPreventDefault ∈ tr).

(** A host that takes note of a callback and leaves the block alone. *)
Definition silentHost : HostCall → list (option string) := λ _, [].

(** ** Specification vocabulary *)

(** What [renderBlockContent] writes for a given content. *)
Definition renderOf (c : option string) : DomWrite :=
  if truthy_opt c then SetText (default "" c) else SetHtml "<br>".

(** The renders caused by assigning [ws] to [block.content] one after the
    other, starting from content [cur], while the flag is down: one for
    each assignment that changes the value. *)
Fixpoint unsuppressedRenders
    (cur : option string) (ws : list (option string)) : list DomWrite :=
  match ws with
  | [] => []
  | v :: ws' =>
      if bool_decide (cur = v) then unsuppressedRenders v ws'
      else renderOf v :: unsuppressedRenders v ws'
  end.

(** The content after the same assignments. *)
Definition contentAfter
    (cur : option string) (ws : list (option string)) : option string :=
  default cur (last ws).

(** The keydown events of one key: by name, or by legacy code where the
    event carries no name. *)
Definition pressed (name : string) (code : Z) (evt : KeyEvent) : Prop :=
  keyValue evt = KName name ∨ keyValue evt = KCode code.

Inductive Horizontal := GoLeft | GoRight.
Inductive Vertical := GoUp | GoDown.

Definition hName (d : Horizontal) : string :=
  match d with GoLeft => "ArrowLeft" | GoRight => "ArrowRight" end.
Definition hCode (d : Horizontal) : Z :=
  match d with GoLeft => 37 | GoRight => 39 end.
(** The text on the side of the selection the arrow points to. *)
Definition hText (d : Horizontal) (ts : TextSplit) : string :=
  match d with
  | GoLeft => textBeforeSelection ts
  | GoRight => textAfterSelection ts
  end.
Definition hCall (d : Horizontal) (b : Block) : HostCall :=
  match d with GoLeft => OnNavigateLeft b | GoRight => OnNavigateRight b end.

Definition vName (d : Vertical) : string :=
  match d with GoUp => "ArrowUp" | GoDown => "ArrowDown" end.
Definition vCode (d : Vertical) : Z :=
  match d with GoUp => 38 | GoDown => 40 end.
(** The line box the arrow points to: the first one or the last one. *)
Definition vEdge (d : Vertical) (el : Element) : option Rect :=
  match d with
  | GoUp => head (clientRects el)
  | GoDown => last (clientRects el)
  end.
(** The vertical distance from the selection rectangle to that edge, as
    a double: the difference of the two coordinates, rounded. *)
Definition vDistance (d : Vertical) (edge range : Rect) : number :=
  match d with
  | GoUp => numSub (top range) (top edge)
  | GoDown => numSub (bottom edge) (bottom range)
  end.
Definition vCall (d : Vertical) (b : Block) (r : Rect) : HostCall :=
  match d with GoUp => OnNavigateUp b r | GoDown => OnNavigateDown b r end.

(** An element rendered as the placeholder: one child, a line break. *)
Definition onlyChildIsBR (el : Element) : Prop :=
  ∃ n, childNodes el = [n] ∧ nodeName n = "BR".

Definition lineFeed : string := String "010"%char EmptyString.

(** The component after lines 253-256 of [setBlockContentFromInput], when
    the flag is down at the end. *)
Definition written (c : string) (s : Session) : Session :=
  {| block := {| id := id (block s);
                 content := Some c;
                 lastContent := content (block s) |};
     isUpdatingBlockContent := false |}.

(** The handler commits to a structural action: it suppresses the default
    action, invokes the callback [c] of the host and no other, and
    returns. *)
Definition commits (c : HostCall) (r : list Effect * Outcome unit) : Prop :=
  defaultSuppressed r.1 = true ∧ hostCalls r.1 = [c] ∧
  ∃ s', r.2 = Returned () s'.

(** The handler defers to the platform: it returns without any effect and
    leaves the component as it was. *)
Definition defers (s : Session) (r : list Effect * Outcome unit) : Prop :=
  r = ([], Returned () s).

(** The handler neither navigates nor fails: no callback, the default
    action left alone, a normal return. *)
Definition quiet (r : list Effect * Outcome unit) : Prop :=
  hostCalls r.1 = [] ∧ defaultSuppressed r.1 = false ∧
  ∃ s', r.2 = Returned () s'.

(** No render is caused ahead of the callback [c]: no DOM write among the
    effects that precede it. *)
Definition noRenderBefore (c : HostCall) (tr : list Effect) : Prop :=
  ∀ pre post, tr = pre ++ EHost c :: post → domWrites pre = [].

(** The component as a call leaves it, on return or on a throw. *)
Definition finalState {A} (o : Outcome A) : Session :=
  match o with
  | Returned _ s => s
  | Threw _ s => s
  end.

(** A computation that, entered with the flag down, leaves it down. *)
Definition keepsFlagDown {A} (m : M A) : Prop :=
  ∀ s, isUpdatingBlockContent s = false →
       isUpdatingBlockContent (finalState (m s).2) = false.

(** ** Sample inputs *)

(** An element showing the text [t] in the line boxes [rects]. *)
Definition textElement (t : string) (rects : list Rect) : Element :=
  {| childNodes := [ {| nodeName := "#text" |} ];
     innerText := Some t;
     textContent := t;
     clientRects := rects |}.

(** The placeholder rendering of an empty block. *)
Definition emptyElement : Element :=
  {| childNodes := [ {| nodeName := "BR" |} ];
     innerText := Some lineFeed;
     textContent := "";
     clientRects := [] |}.

(** A collapsed caret between [before] and [after]. *)
Definition caretEnv (before after : string)
    (rects : list Rect) (range : option Rect) : Env :=
  {| element := textElement (before +:+ after) rects;
     selection_isCollapsed := true;
     currentRangeRect := range;
     getManipulation := λ _, {| textBeforeSelection := before;
                                textAfterSelection := after |} |}.

(** The component at rest, its block holding [c]. *)
Definition atRest (c : string) : Session :=
  {| block := {| id := "b1"; content := Some c; lastContent := None |};
     isUpdatingBlockContent := false |}.

Definition keyNamed (name : string) (shift : bool) : KeyEvent :=
  {| key := Some name; keyCode := 0; shiftKey := shift |}.

Definition keyCoded (code : Z) (shift : bool) : KeyEvent :=
  {| key := None; keyCode := code; shiftKey := shift |}.

(** A clipboard holding a plain-text and an HTML rendering of a copy. *)
Definition richClipboard (plain html : string) : gmap string string :=
  <["text/plain" := plain]> (<["text/html" := html]> ∅).

(** A rectangle with whole coordinates. *)
Definition rect (t b l r : Z) : Rect :=
  {| top := numOf t; bottom := numOf b;
     left := numOf l; right := numOf r |}.

(** Two line boxes, each 18 high. *)
Definition twoLines : list Rect :=
  [ rect 100 118 0 300; rect 118 136 0 120 ].

(** Two runs of text with a line break between them: the element shows
    "a", a new line, "b", which is what [innerText] reports where the
    browser has it ([shown]); [textContent] leaves the break out. *)
Definition brokenLine (shown : option string) : Element :=
  {| childNodes := [ {| nodeName := "#text" |}; {| nodeName := "BR" |};
                     {| nodeName := "#text" |} ];
     innerText := shown;
     textContent := "ab";
     clientRects := twoLines |}.

(** ** Vocabulary for the handlers as a whole *)

(** The six keys of the switch in [keyDown], each with its legacy code. *)
Definition keyTable : list (string * Z) :=
  [("ArrowLeft", 37%Z); ("ArrowUp", 38%Z); ("ArrowRight", 39%Z);
   ("ArrowDown", 40%Z); ("Backspace", 8%Z); ("Enter", 13%Z)].

(** The same event with another state of the Shift key. *)
Definition withShift (b : bool) (evt : KeyEvent) : KeyEvent :=
  {| key := key evt; keyCode := keyCode evt; shiftKey := b |}.

(** The values the host assigned to the content over the callbacks of a
    run, in order. *)
Definition hostAssignments
    (host : HostCall → list (option string)) (tr : list Effect)
    : list (option string) :=
  concat (host <$> hostCalls tr).

(** The ways a keydown can end.  [KeyDeferred]: nothing was done.
    [KeyFaulted]: a vertical arrow found no line box or no selection
    rectangle.  [KeyCommitted]: one callback, after cancelling the event.
    [KeySplit]: Enter without Shift. *)
Inductive KeyOutcome (host : HostCall → list (option string)) (env : Env)
    (evt : KeyEvent) (s : Session) : list Effect * Outcome unit → Prop :=
  | KeyDeferred :
      KeyOutcome host env evt s ([], Returned () s)
  | KeyFaulted d :
      pressed (vName d) (vCode d) evt →
      vEdge d (element env) = None ∨ currentRangeRect env = None →
      KeyOutcome host env evt s ([], Threw TypeError s)
  | KeyCommitted c ds :
      ¬ (pressed "Enter" 13 evt ∧ shiftKey evt = false) →
      KeyOutcome host env evt s
        (EStopPropagation :: EPreventDefault :: EHost c :: (EDom <$> ds),
         Returned ()
           (withContent (contentAfter (content (block s)) (host c)) s))
  | KeySplit ds1 ds2 ds3 :
      pressed "Enter" 13 evt →
      shiftKey evt = false →
      let ts := getManipulation env (element env) in
      let inserted := NewBlockInsertedLocally (textAfterSelection ts) in
      KeyOutcome host env evt s
        (EStopPropagation :: EPreventDefault ::
           (EDom <$> ds1) ++ EHost BlockContentUpdatedLocally ::
           (EDom <$> ds2) ++ EHost inserted :: (EDom <$> ds3),
         Returned ()
           (withContent
              (contentAfter (Some (textBeforeSelection ts))
                 (host BlockContentUpdatedLocally ++ host inserted))
              (withLastContent (content (block s)) s))).

(** The events the component reacts to: the three DOM events it handles
    and the [didInsertElement] hook. *)
Inductive ComponentEvent :=
  | KeyDownEvent (evt : KeyEvent)
  | InputEvent
  | PasteEventOf (evt : PasteEvent)
  | DidInsertElement.

(** The method run for an event. *)
Definition handle (host : HostCall → list (option string))
    (isFirefox : bool) (env : Env) (e : ComponentEvent) : M unit :=
  match e with
  | KeyDownEvent evt => keyDown host env evt
  | InputEvent => input host isFirefox env
  | PasteEventOf evt => paste evt
  | DidInsertElement => didInsertElement
  end.

(** Events handled one after the other, each in the environment it
    arrives in.  A handler that throws ends that event only: the next one
    finds the component as the throw left it. *)
Fixpoint runEvents (host : HostCall → list (option string))
    (isFirefox : bool) (evs : list (Env * ComponentEvent)) (s : Session)
    : list Effect * Session :=
  match evs with
  | [] => ([], s)
  | (env, e) :: rest =>
      let r := handle host isFirefox env e s in
      let r' := runEvents host isFirefox rest (finalState r.2) in
      (r.1 ++ r'.1, r'.2)
  end.

(** An effect that carries no markup of the user's: the only HTML ever
    written is the placeholder, the only editing command is
    [insertText]. *)
Definition markupFree (e : Effect) : Prop :=
  match e with
  | EDom (SetHtml markup) => markup = "<br>"
  | EExecCommand name _ _ => name = "insertText"
  | _ => True
  end.

(** A computation all of whose effects satisfy [P]. *)
Definition emitsOnly {A} (P : Effect → Prop) (m : M A) : Prop :=
  ∀ s, Forall P (m s).1.

(** An effect on the host or on the DOM, as opposed to one on the event
    or an editing command. *)
Definition hostOrDom (e : Effect) : Prop :=
  match e with
  | EHost _ | EDom _ => True
  | _ => False
  end.

(** ** Vocabulary for keys and distances *)

(** A keydown of the key [name]: the event names it, or it carries no
    name and has the key's legacy code. *)
Definition struck (name : string) (code : Z) (evt : KeyEvent) : Prop :=
  key evt = Some name ∨
  ((key evt = None ∨ key evt = Some "") ∧ keyCode evt = code).

(** A number that is no number. *)
Definition isNaN (x : number) : bool :=
  match x with
  | S754_nan => true
  | _ => false
  end.

(** [a <= b] and [a == b] on doubles. *)
Definition atMost (a b : number) : Prop := SFleb a b = true.
Definition equals (a b : number) : Prop := SFeqb a b = true.

(** ** Lemmas on the monad and on the property writes *)

Ltac run :=
  repeat (unfold mbind, M_bind, mret, M_ret, gets, modify, emit, throw,
            deref, when, set_isUpdatingBlockContent, set_block_lastContent;
          cbn -[hostWrites]).

Lemma bind_run {A B} (m : M A) (f : A → M B) s tr a s1 :
  m s = (tr, Returned a s1) →
  (m ≫= f) s = (tr ++ (f a s1).1, (f a s1).2).
Proof.
  intros H. unfold mbind, M_bind. rewrite H. by destruct (f a s1).
Qed.

Lemma deref_Some {A B} (a : A) (f : A → M B) s :
  (deref (Some a) ≫= f) s = f a s.
Proof. unfold deref, mbind, M_bind, mret, M_ret. by destruct (f a s). Qed.

Lemma deref_None {A B} (f : A → M B) s :
  (deref None ≫= f) s = ([], Threw TypeError s).
Proof. done. Qed.

Lemma withContent_same s : withContent (content (block s)) s = s.
Proof. by destruct s as [[i c l] g]. Qed.

Lemma renderBlockContent_guarded s :
  isUpdatingBlockContent s = true →
  renderBlockContent s = ([], Returned () s).
Proof. intros Hg. unfold renderBlockContent. run. by rewrite Hg. Qed.

Lemma renderBlockContent_unguarded s :
  isUpdatingBlockContent s = false →
  renderBlockContent s = ([EDom (renderOf (content (block s)))], Returned () s).
Proof.
  intros Hg. unfold renderBlockContent, renderOf. run. rewrite Hg.
  by destruct (truthy_opt (content (block s))).
Qed.

Lemma set_block_content_guarded v s :
  isUpdatingBlockContent s = true →
  set_block_content v s = ([], Returned () (withContent v s)).
Proof.
  intros Hg. unfold set_block_content. run. case_bool_decide as Hv.
  - by rewrite <- Hv, withContent_same.
  - by rewrite renderBlockContent_guarded.
Qed.

Lemma set_block_content_unguarded v s :
  isUpdatingBlockContent s = false →
  set_block_content v s =
    (EDom <$> unsuppressedRenders (content (block s)) [v],
     Returned () (withContent v s)).
Proof.
  intros Hg. unfold set_block_content. run. case_bool_decide as Hv.
  - by rewrite <- Hv, withContent_same.
  - by rewrite renderBlockContent_unguarded.
Qed.

Lemma contentAfter_cons cur v ws :
  contentAfter cur (v :: ws) = contentAfter v ws.
Proof.
  unfold contentAfter. rewrite last_cons. by destruct (last ws).
Qed.

Lemma hostCalls_dom ws : hostCalls (EDom <$> ws) = [].
Proof. induction ws as [|w ws IH]; [done | exact IH]. Qed.

Lemma domWrites_dom ws : domWrites (EDom <$> ws) = ws.
Proof. induction ws as [|w ws IH]; [done | cbn; by f_equal]. Qed.

Lemma hostCalls_app tr1 tr2 :
  hostCalls (tr1 ++ tr2) = hostCalls tr1 ++ hostCalls tr2.
Proof. apply omap_app. Qed.

Section ComponentLemmas.

Variable host : HostCall → list (option string).

(** While the flag is up, assignments to the content render nothing. *)
Lemma hostWrites_guarded ws s :
  isUpdatingBlockContent s = true →
  hostWrites ws s =
    ([], Returned () (withContent (contentAfter (content (block s)) ws) s)).
Proof.
  revert s. induction ws as [|v ws IH]; intros s Hg.
  - cbn. by rewrite withContent_same.
  - cbn [hostWrites]. unfold mbind, M_bind.
    rewrite set_block_content_guarded by done.
    rewrite IH by done. by rewrite contentAfter_cons.
Qed.

(** While it is down, each assignment that changes the content renders. *)
Lemma hostWrites_unguarded ws s :
  isUpdatingBlockContent s = false →
  hostWrites ws s =
    (EDom <$> unsuppressedRenders (content (block s)) ws,
     Returned () (withContent (contentAfter (content (block s)) ws) s)).
Proof.
  revert s. induction ws as [|v ws IH]; intros s Hg.
  - cbn. by rewrite withContent_same.
  - cbn [hostWrites]. unfold mbind, M_bind.
    rewrite set_block_content_unguarded by done.
    rewrite IH by done. rewrite contentAfter_cons. cbn.
    by case_bool_decide.
Qed.

Lemma callHost_unguarded c s :
  isUpdatingBlockContent s = false →
  callHost host c s =
    (EHost c :: (EDom <$> unsuppressedRenders (content (block s)) (host c)),
     Returned ()
       (withContent (contentAfter (content (block s)) (host c)) s)).
Proof.
  intros Hg. unfold callHost. run. by rewrite hostWrites_unguarded.
Qed.

End ComponentLemmas.

Section SynchronisationLemmas.

Variable host : HostCall → list (option string).

Lemma setBlockContentFromInput_guarded c s :
  setBlockContentFromInput host c true s =
    callHost host BlockContentUpdatedLocally (written c s).
Proof.
  unfold setBlockContentFromInput. run.
  rewrite set_block_content_guarded by done. cbn.
  by destruct (callHost host BlockContentUpdatedLocally _) as [tr []].
Qed.

Lemma setBlockContentFromInput_unguarded c s :
  isUpdatingBlockContent s = false →
  setBlockContentFromInput host c false s =
    ((EDom <$> unsuppressedRenders (content (block s)) [Some c]) ++
       (callHost host BlockContentUpdatedLocally (written c s)).1,
     (callHost host BlockContentUpdatedLocally (written c s)).2).
Proof.
  intros Hg. unfold setBlockContentFromInput. run.
  rewrite set_block_content_unguarded by done.
  replace (withContent (Some c) (withLastContent (content (block s)) s))
    with (written c s)
    by (destruct s as [[i c0 l] g]; cbn in Hg; by subst g).
  destruct (callHost host BlockContentUpdatedLocally _) as [tr []];
    cbn; by rewrite ?app_nil_r.
Qed.

(** What a call amounts to when the flag is down on entry. *)
Lemma setBlockContentFromInput_run c p s :
  isUpdatingBlockContent s = false →
  setBlockContentFromInput host c p s =
    ((EDom <$> (if p then []
                else unsuppressedRenders (content (block s)) [Some c])) ++
       EHost BlockContentUpdatedLocally ::
       (EDom <$> unsuppressedRenders (Some c)
                   (host BlockContentUpdatedLocally)),
     Returned ()
       (withContent
          (contentAfter (Some c) (host BlockContentUpdatedLocally))
          (written c s))).
Proof.
  intros Hg. destruct p.
  - rewrite setBlockContentFromInput_guarded.
    by rewrite callHost_unguarded.
  - rewrite setBlockContentFromInput_unguarded by done.
    by rewrite callHost_unguarded.
Qed.

End SynchronisationLemmas.

(** ** The dispatch of [keyDown] *)

Section Dispatch.

Variable host : HostCall → list (option string).
Variable env : Env.

Ltac dispatch H :=
  unfold keyDown; destruct H as [-> | ->]; reflexivity.

Lemma keyDown_horizontal d evt :
  pressed (hName d) (hCode d) evt →
  keyDown host env evt =
    match d with
    | GoLeft => navigateLeft host env
    | GoRight => navigateRight host env
    end.
Proof. intros H. destruct d; dispatch H. Qed.

Lemma keyDown_vertical d evt :
  pressed (vName d) (vCode d) evt →
  keyDown host env evt =
    match d with
    | GoUp => navigateUp host env
    | GoDown => navigateDown host env
    end.
Proof. intros H. destruct d; dispatch H. Qed.

Lemma keyDown_backspace evt :
  pressed "Backspace" 8 evt →
  keyDown host env evt = backspace host env.
Proof. intros H. dispatch H. Qed.

Lemma keyDown_enter evt :
  pressed "Enter" 13 evt →
  keyDown host env evt =
    if shiftKey evt then mret ()
    else emit EStopPropagation;; emit EPreventDefault;;
         newBlockAtSplit host env.
Proof. intros H. dispatch H. Qed.

End Dispatch.

(** ** Committing to a structural action, or deferring to the platform *)

Section Decisions.

Variable host : HostCall → list (option string).

(** Whatever the flag, the host's assignments cause DOM writes only. *)
Lemma hostWrites_only_dom ws s :
  ∃ ds s', hostWrites ws s = (EDom <$> ds, Returned () s').
Proof.
  destruct (isUpdatingBlockContent s) eqn:Hg.
  - exists [], (withContent (contentAfter (content (block s)) ws) s).
    by apply hostWrites_guarded.
  - eexists _, _. by apply hostWrites_unguarded.
Qed.

Lemma callHost_only_dom c s :
  ∃ ds s', callHost host c s = (EHost c :: (EDom <$> ds), Returned () s').
Proof.
  destruct (hostWrites_only_dom (host c) s) as (ds & s' & H).
  exists ds, s'. unfold callHost. run. by rewrite H.
Qed.

Lemma commit_run (f : Block → HostCall) s :
  commits (f (block s))
    ((emit EStopPropagation;; emit EPreventDefault;;
      b ← gets block; callHost host (f b)) s).
Proof.
  destruct (callHost_only_dom (f (block s)) s) as (ds & s' & H).
  unfold commits. run. rewrite H. cbn. split_and!.
  - apply bool_decide_eq_true. set_solver.
  - by rewrite hostCalls_dom.
  - by exists s'.
Qed.

End Decisions.

Lemma commits_not_defers c s r : commits c r → ¬ defers s r.
Proof. intros (_ & Hc & _) ->. done. Qed.

(** The two shapes of a decision on a condition [P]. *)
Lemma decision_defers c s (P : Prop) :
  ¬ P →
  (commits c ([], Returned () s) ↔ P) ∧
  (¬ P → defers s ([], Returned () s)).
Proof.
  intros HP. split; [split; [|done] | done].
  intros Hc. by apply (commits_not_defers _ s) in Hc.
Qed.

Lemma decision_commits c s r (P : Prop) :
  P → commits c r → (commits c r ↔ P) ∧ (¬ P → defers s r).
Proof. intros HP Hc. split; [done | by intros []]. Qed.

Lemma getElementRect_edge d el :
  getElementRect el (match d with GoUp => "top" | GoDown => "bottom" end) =
  vEdge d el.
Proof.
  destruct d; unfold getElementRect, vEdge; cbn.
  - by rewrite head_lookup.
  - rewrite last_lookup. by destruct (clientRects el).
Qed.

Lemma SFcompare_swap x y : SFcompare y x = CompOpp <$> SFcompare x y.
Proof.
  destruct x as [sx|sx| |sx mx ex], y as [sy|sy| |sy my ey]; cbn;
    try reflexivity; try (by destruct sx); try (by destruct sy);
    try (by destruct sx, sy).
  destruct sx, sy; try reflexivity; f_equal;
    rewrite (Z.compare_antisym ex ey);
    destruct (ex ?= ey)%Z; cbn; try reflexivity;
    by rewrite (Pos.compare_cont_antisym mx my Eq).
Qed.

Lemma SFcompare_number x y :
  isNaN x = false → isNaN y = false → is_Some (SFcompare x y).
Proof.
  destruct x as [sx|sx| |sx mx ex], y as [sy|sy| |sy my ey];
    intros Hx Hy; try discriminate; cbn; eauto.
Qed.

(** For numbers, "not greater than" is "at most". *)
Lemma numGt_false a b :
  isNaN a = false → isNaN b = false → numGt a b = false ↔ atMost a b.
Proof.
  intros Ha Hb. unfold numGt, atMost, SFltb, SFleb.
  rewrite (SFcompare_swap a b).
  destruct (SFcompare_number a b Ha Hb) as [c ->]. by destruct c.
Qed.

Lemma numGt_true a b :
  isNaN a = false → isNaN b = false → numGt a b = true ↔ ¬ atMost a b.
Proof.
  intros Ha Hb. rewrite <- (numGt_false a b Ha Hb).
  by destruct (numGt a b).
Qed.

(** A double equal to a finite non-zero one is that double. *)
Lemma equals_finite a s m e :
  equals a (S754_finite s m e) → a = S754_finite s m e.
Proof.
  unfold equals, SFeqb.
  destruct a as [sa|sa| |sa ma ea]; cbn; try (by destruct sa);
    try (by destruct s); try done.
  destruct sa, s; try done;
    destruct (Z.compare_spec ea e) as [->| |]; try done;
    rewrite Pos.compare_cont_spec; cbn;
    destruct (Pos.compare_spec ma m) as [->| |]; cbn; done.
Qed.

Lemma struck_pressed name code evt :
  name ≠ "" → struck name code evt → pressed name code evt.
Proof.
  intros Hn [Hk|[[Hk|Hk] Hc]]; unfold pressed, keyValue; rewrite Hk.
  - left. unfold truthy. by rewrite bool_decide_eq_false_2.
  - right. by rewrite Hc.
  - right. by rewrite Hc.
Qed.

(** ** Sample runs *)

(** Typing "!" at the end of "hello": the model follows, the DOM is left
    to the user. *)
Example input_run :
  input silentHost false (caretEnv "hello!" "" [] None) (atRest "hello") =
  ([EHost BlockContentUpdatedLocally],
   Returned ()
     {| block := {| id := "b1"; content := Some "hello!";
                    lastContent := Some "hello" |};
        isUpdatingBlockContent := false |}).
Proof. reflexivity. Qed.

(** ArrowDown on the last line, 9 above the bottom edge, and one line
    higher, 27 above it. *)
Example arrow_down_near_edge :
  let range := rect 109 127 40 41 in
  keyDown silentHost (caretEnv "two" " lines" twoLines (Some range))
    (keyNamed "ArrowDown" false) (atRest "two lines") =
  ([EStopPropagation; EPreventDefault;
    EHost (OnNavigateDown (block (atRest "two lines")) range)],
   Returned () (atRest "two lines")).
Proof. reflexivity. Qed.

Example arrow_down_far_from_edge :
  let range := rect 91 109 40 41 in
  keyDown silentHost (caretEnv "two" " lines" twoLines (Some range))
    (keyCoded 40 false) (atRest "two lines") =
  ([], Returned () (atRest "two lines")).
Proof. reflexivity. Qed.

(** A key named in the old style is not recognised, whatever its code. *)
Example legacy_name_is_ignored :
  keyDown silentHost (caretEnv "" "abc" [] None)
    {| key := Some "Left"; keyCode := 37; shiftKey := false |}
    (atRest "abc") =
  ([], Returned () (atRest "abc")).
Proof. reflexivity. Qed.

(** Mounting an empty block shows the placeholder. *)
Example mount_empty_block :
  didInsertElement (atRest "") =
  ([EDom (SetHtml "<br>")], Returned () (atRest "")).
Proof. reflexivity. Qed.

(** ** The keyboard state machine *)

(** C4.  On a Backspace keydown the handler commits to
    [onBlockDeletedLocally], called once with the current block and the
    text after the selection, the default action suppressed, if and only if
    the text before the selection is empty and the selection is collapsed;
    in every other state it has no effect at all, so no callback is invoked
    and the default deletion proceeds. *)
Theorem backspace_deletes_block_iff host env evt s :
  pressed "Backspace" 8 evt →
  let ts := getManipulation env (element env) in
  let r := keyDown host env evt s in
  (commits (OnBlockDeletedLocally (block s) (textAfterSelection ts)) r ↔
     textBeforeSelection ts = "" ∧ selection_isCollapsed env = true) ∧
  (¬ (textBeforeSelection ts = "" ∧ selection_isCollapsed env = true) →
     defers s r).
Proof.
  intros Hk ts r. subst r. rewrite (keyDown_backspace _ _ _ Hk).
  unfold backspace. fold ts. unfold truthy.
  destruct (selection_isCollapsed env);
    case_bool_decide as Hb; cbn [negb orb];
    try (apply decision_defers; by intros []).
  apply decision_commits; [done|].
  apply (commit_run host (λ b, OnBlockDeletedLocally b _)).
Qed.

Lemma backspace_deletes_block_iff_witness :
  commits (OnBlockDeletedLocally (block (atRest "tail")) "tail")
    (keyDown silentHost (caretEnv "" "tail" [] None)
       (keyNamed "Backspace" false) (atRest "tail")).
Proof.
  eapply backspace_deletes_block_iff.
  - left. reflexivity.
  - split; reflexivity.
Defined.

(** C6.  On an ArrowLeft keydown - an event named "ArrowLeft", or one
    without a name whose code is 37 - the handler commits to
    [onNavigateLeft], called once with the default action suppressed,
    exactly when the text before the selection is empty, and has no effect
    when it is not; on an ArrowRight keydown ("ArrowRight", or code 39)
    the same holds of [onNavigateRight] and the text after the
    selection. *)
Theorem horizontal_arrow_leaves_block_iff host env d evt s :
  struck (hName d) (hCode d) evt →
  let ts := getManipulation env (element env) in
  let r := keyDown host env evt s in
  (commits (hCall d (block s)) r ↔ hText d ts = "") ∧
  (hText d ts ≠ "" → defers s r).
Proof.
  intros Hk ts r. subst r.
  assert (pressed (hName d) (hCode d) evt) as Hp.
  { apply struck_pressed; [by destruct d | done]. }
  rewrite (keyDown_horizontal _ _ _ _ Hp).
  assert (∀ f t,
    let r := (if truthy t then mret ()
              else emit EStopPropagation;; emit EPreventDefault;;
                   b ← gets block; callHost host (f b)) s in
    (commits (f (block s)) r ↔ t = "") ∧ (t ≠ "" → defers s r)) as Hgen.
  { intros f t. unfold truthy. case_bool_decide as Ht; cbn [negb].
    - split; [split; [done|] | done]. intros _. apply commit_run.
    - split; [split; [|done] | done].
      intros Hc. by apply (commits_not_defers _ s) in Hc. }
  destruct d; cbn [hCall hText].
  - apply (Hgen OnNavigateLeft).
  - apply (Hgen OnNavigateRight).
Qed.

Lemma horizontal_arrow_leaves_block_iff_witness :
  let s := atRest "abc" in
  commits (OnNavigateLeft (block s))
    (keyDown silentHost (caretEnv "" "abc" [] None)
       (keyNamed "ArrowLeft" false) s) ∧
  commits (OnNavigateLeft (block s))
    (keyDown silentHost (caretEnv "" "abc" [] None) (keyCoded 37 false) s) ∧
  defers s
    (keyDown silentHost (caretEnv "a" "bc" [] None)
       (keyNamed "ArrowLeft" false) s) ∧
  commits (OnNavigateRight (block s))
    (keyDown silentHost (caretEnv "abc" "" [] None)
       (keyNamed "ArrowRight" false) s) ∧
  commits (OnNavigateRight (block s))
    (keyDown silentHost (caretEnv "abc" "" [] None) (keyCoded 39 false) s) ∧
  defers s
    (keyDown silentHost (caretEnv "ab" "c" [] None) (keyCoded 39 false) s).
Proof.
  intros s. split_and!.
  - exact (proj2 (proj1
      (horizontal_arrow_leaves_block_iff silentHost
         (caretEnv "" "abc" [] None) GoLeft (keyNamed "ArrowLeft" false) s
         (or_introl eq_refl))) eq_refl).
  - exact (proj2 (proj1
      (horizontal_arrow_leaves_block_iff silentHost
         (caretEnv "" "abc" [] None) GoLeft (keyCoded 37 false) s
         (or_intror (conj (or_introl eq_refl) eq_refl)))) eq_refl).
  - apply (proj2
      (horizontal_arrow_leaves_block_iff silentHost
         (caretEnv "a" "bc" [] None) GoLeft (keyNamed "ArrowLeft" false) s
         (or_introl eq_refl))).
    discriminate.
  - exact (proj2 (proj1
      (horizontal_arrow_leaves_block_iff silentHost
         (caretEnv "abc" "" [] None) GoRight (keyNamed "ArrowRight" false) s
         (or_introl eq_refl))) eq_refl).
  - exact (proj2 (proj1
      (horizontal_arrow_leaves_block_iff silentHost
         (caretEnv "abc" "" [] None) GoRight (keyCoded 39 false) s
         (or_intror (conj (or_introl eq_refl) eq_refl)))) eq_refl).
  - apply (proj2
      (horizontal_arrow_leaves_block_iff silentHost
         (caretEnv "ab" "c" [] None) GoRight (keyCoded 39 false) s
         (or_intror (conj (or_introl eq_refl) eq_refl)))).
    discriminate.
Defined.



(** C5.  On an ArrowUp (ArrowDown) keydown - an event so named, or one
    without a name whose code is 38 (40) - with the selection rectangle
    and the element's first (last) line box at hand, let the distance be
    what the handler computes: the difference of the two tops (bottoms),
    rounded to a double, and let it be a number.  The handler commits to
    [onNavigateUp] ([onNavigateDown]) with the current block and the
    selection rectangle, the default action suppressed, if and only if the
    distance is at most 10; beyond 10 it has no effect.  A distance of 9
    navigates, a distance of 11 does not. *)
Theorem vertical_arrow_threshold host env d evt s edge range :
  struck (vName d) (vCode d) evt →
  vEdge d (element env) = Some edge →
  currentRangeRect env = Some range →
  let dist := vDistance d edge range in
  isNaN dist = false →
  let r := keyDown host env evt s in
  (commits (vCall d (block s) range) r ↔ atMost dist (numOf 10)) ∧
  (¬ atMost dist (numOf 10) → defers s r) ∧
  (equals dist (numOf 9) → commits (vCall d (block s) range) r) ∧
  (equals dist (numOf 11) → defers s r).
Proof.
  intros Hk He Hr dist Hnan r.
  assert (pressed (vName d) (vCode d) evt) as Hp.
  { apply struck_pressed; [by destruct d | done]. }
  assert ((commits (vCall d (block s) range) r ↔ atMost dist (numOf 10)) ∧
          (¬ atMost dist (numOf 10) → defers s r)) as [Hiff Hdef].
  { subst r. rewrite (keyDown_vertical _ _ _ _ Hp).
    pose proof (getElementRect_edge d (element env)) as Hg.
    rewrite He in Hg.
    destruct d; unfold navigateUp, navigateDown;
      cbn [vCall vDistance] in *;
      rewrite Hg, deref_Some, Hr, deref_Some; cbn zeta;
      fold dist; destruct (numGt dist (numOf 10)) eqn:Hd.
    all: try (apply numGt_true in Hd; [|done..]; by apply decision_defers).
    all: apply numGt_false in Hd; [|done..];
      apply decision_commits; [done|].
    - apply (commit_run host (λ b, OnNavigateUp b range)).
    - apply (commit_run host (λ b, OnNavigateDown b range)). }
  split_and!; [done | done | |].
  - intros E. apply Hiff. apply (equals_finite dist false _ _) in E.
    by rewrite E.
  - intros E. apply Hdef. apply (equals_finite dist false _ _) in E.
    by rewrite E.
Qed.

Lemma vertical_arrow_threshold_witness :
  let s := atRest "two lines" in
  let near := rect 109 127 40 41 in
  let far := rect 111 125 40 41 in
  commits (OnNavigateUp (block s) near)
    (keyDown silentHost (caretEnv "two" " lines" twoLines (Some near))
       (keyNamed "ArrowUp" false) s) ∧
  commits (OnNavigateDown (block s) near)
    (keyDown silentHost (caretEnv "two" " lines" twoLines (Some near))
       (keyCoded 40 false) s) ∧
  defers s
    (keyDown silentHost (caretEnv "two" " lines" twoLines (Some far))
       (keyCoded 38 false) s) ∧
  defers s
    (keyDown silentHost (caretEnv "two" " lines" twoLines (Some far))
       (keyNamed "ArrowDown" false) s).
Proof.
  intros s near far. split_and!.
  - exact (proj1 (proj2 (proj2
      (vertical_arrow_threshold silentHost
         (caretEnv "two" " lines" twoLines (Some near)) GoUp
         (keyNamed "ArrowUp" false) s (rect 100 118 0 300) near
         (or_introl eq_refl) eq_refl eq_refl eq_refl))) eq_refl).
  - exact (proj1 (proj2 (proj2
      (vertical_arrow_threshold silentHost
         (caretEnv "two" " lines" twoLines (Some near)) GoDown
         (keyCoded 40 false) s (rect 118 136 0 120) near
         (or_intror (conj (or_introl eq_refl) eq_refl))
         eq_refl eq_refl eq_refl))) eq_refl).
  - exact (proj2 (proj2 (proj2
      (vertical_arrow_threshold silentHost
         (caretEnv "two" " lines" twoLines (Some far)) GoUp
         (keyCoded 38 false) s (rect 100 118 0 300) far
         (or_intror (conj (or_introl eq_refl) eq_refl))
         eq_refl eq_refl eq_refl))) eq_refl).
  - exact (proj2 (proj2 (proj2
      (vertical_arrow_threshold silentHost
         (caretEnv "two" " lines" twoLines (Some far)) GoDown
         (keyNamed "ArrowDown" false) s (rect 118 136 0 120) far
         (or_introl eq_refl) eq_refl eq_refl eq_refl))) eq_refl).
Defined.

(** The distance is the rounded one: with the first line's top at
    -2^-60 and the selection's top at 10 the difference rounds to 10, and
    the handler navigates. *)
Example rounded_distance_navigates :
  let edge := {| top := dyadic (-1) (-60); bottom := numOf 18;
                 left := numOf 0; right := numOf 300 |} in
  let range := rect 10 28 40 41 in
  vDistance GoUp edge range = numOf 10 ∧
  keyDown silentHost (caretEnv "one" " line" [edge] (Some range))
    (keyNamed "ArrowUp" false) (atRest "one line") =
  ([EStopPropagation; EPreventDefault;
    EHost (OnNavigateUp (block (atRest "one line")) range)],
   Returned () (atRest "one line")).
Proof. split; reflexivity. Qed.

(** A distance that is no number is not greater than 10: the handler
    navigates. *)
Example nan_distance_navigates :
  let range := {| top := S754_nan; bottom := S754_nan;
                  left := numOf 0; right := numOf 1 |} in
  keyDown silentHost (caretEnv "two" " lines" twoLines (Some range))
    (keyNamed "ArrowDown" false) (atRest "two lines") =
  ([EStopPropagation; EPreventDefault;
    EHost (OnNavigateDown (block (atRest "two lines")) range)],
   Returned () (atRest "two lines")).
Proof. reflexivity. Qed.

(** ** Enter: the split *)

Lemma contentAfter_app cur ws1 ws2 :
  contentAfter cur (ws1 ++ ws2) = contentAfter (contentAfter cur ws1) ws2.
Proof.
  revert cur. induction ws1 as [|v ws1 IH]; intros cur; [done|].
  cbn [app]. rewrite !contentAfter_cons. apply IH.
Qed.

Section Split.

Variable host : HostCall → list (option string).

(** A callback, whatever the flag: the call, then DOM writes only; the
    content ends as the host's last assignment, the rest is kept. *)
Lemma callHost_shape c s :
  ∃ ds s',
    callHost host c s = (EHost c :: (EDom <$> ds), Returned () s') ∧
    content (block s') = contentAfter (content (block s)) (host c) ∧
    lastContent (block s') = lastContent (block s) ∧
    isUpdatingBlockContent s' = isUpdatingBlockContent s.
Proof.
  unfold callHost. run. destruct (isUpdatingBlockContent s) eqn:Hg.
  - rewrite hostWrites_guarded by done.
    eexists [], _. split_and!; [reflexivity | done..].
  - rewrite hostWrites_unguarded by done.
    eexists _, _. split_and!; [reflexivity | done..].
Qed.

(** [setBlockContentFromInput], whatever the flag and the argument. *)
Lemma setBlockContentFromInput_shape c p s :
  ∃ ds1 ds2 s',
    setBlockContentFromInput host c p s =
      ((EDom <$> ds1) ++ EHost BlockContentUpdatedLocally ::
         (EDom <$> ds2), Returned () s') ∧
    content (block s') =
      contentAfter (Some c) (host BlockContentUpdatedLocally) ∧
    lastContent (block s') = content (block s).
Proof.
  destruct p.
  - rewrite setBlockContentFromInput_guarded.
    destruct (callHost_shape BlockContentUpdatedLocally (written c s))
      as (ds & s' & -> & Hc & Hl & _).
    by exists [], ds, s'.
  - unfold setBlockContentFromInput. run.
    set (s1 := withLastContent (content (block s)) s).
    assert (∃ ds1, set_block_content (Some c) s1 =
              (EDom <$> ds1, Returned () (withContent (Some c) s1)))
      as [ds1 ->].
    { destruct (isUpdatingBlockContent s1) eqn:Hg.
      - exists []. by apply set_block_content_guarded.
      - eexists. by apply set_block_content_unguarded. }
    destruct (callHost_shape BlockContentUpdatedLocally
                (withContent (Some c) s1))
      as (ds & s' & -> & Hc & Hl & _).
    by exists ds1, ds, s'.
Qed.

End Split.

(** C3.  On an Enter keydown without Shift the default action is
    suppressed, the host is told of the content change and then asked,
    once, for a new block seeded with the text after the selection, and the
    block's content is the text before the selection (or, where the host
    itself assigns the content while it handles those two callbacks, the
    last value it assigned).  With Shift the handler has no effect: the
    default action is kept and no callback is invoked. *)
Theorem enter_splits_block host env evt s :
  pressed "Enter" 13 evt →
  let ts := getManipulation env (element env) in
  let inserted := NewBlockInsertedLocally (textAfterSelection ts) in
  let r := keyDown host env evt s in
  (shiftKey evt = false →
     ∃ s', r.2 = Returned () s' ∧
       defaultSuppressed r.1 = true ∧
       hostCalls r.1 = [BlockContentUpdatedLocally; inserted] ∧
       content (block s') =
         contentAfter (Some (textBeforeSelection ts))
           (host BlockContentUpdatedLocally ++ host inserted)) ∧
  (shiftKey evt = true → defers s r).
Proof.
  intros Hk ts inserted r. subst r. rewrite (keyDown_enter _ _ _ Hk).
  split; intros ->; [|done].
  unfold newBlockAtSplit. fold ts. fold inserted.
  destruct (setBlockContentFromInput_shape host (textBeforeSelection ts)
              false s) as (ds1 & ds2 & s1 & Hrun & Hc1 & _).
  destruct (callHost_shape host inserted s1) as (ds3 & s2 & Hins & Hc2 & _).
  rewrite (bind_run (emit EStopPropagation) _ s [EStopPropagation] () s)
    by done.
  rewrite (bind_run (emit EPreventDefault) _ s [EPreventDefault] () s)
    by done.
  rewrite (bind_run _ _ _ _ _ _ Hrun), Hins. cbn. exists s2. split_and!.
  - done.
  - apply bool_decide_eq_true. set_solver.
  - pose proof hostCalls_dom as Hd. unfold hostCalls in Hd.
    rewrite !omap_app. cbn. by rewrite !Hd.
  - by rewrite Hc2, Hc1, contentAfter_app.
Qed.

Lemma enter_splits_block_witness :
  let r := keyDown silentHost (caretEnv "hello" " world" [] None)
             (keyNamed "Enter" false) (atRest "hello world") in
  ∃ s',
    r.2 = Returned () s' ∧
    defaultSuppressed r.1 = true ∧
    hostCalls r.1 =
      [BlockContentUpdatedLocally; NewBlockInsertedLocally " world"] ∧
    content (block s') = Some "hello".
Proof.
  eapply (enter_splits_block silentHost).
  - left. reflexivity.
  - reflexivity.
Defined.

(** ** Vertical arrows without a selection rectangle *)

(** C1, as claimed, fails: ArrowUp in a two-line block while the selection
    provider has no rectangle.  Reading [rangeRect.top] throws, so the
    handler is not [quiet]. *)
Lemma missing_range_rect_throws :
  let r := keyDown silentHost (caretEnv "two" " lines" twoLines None)
             (keyNamed "ArrowUp" false) (atRest "two lines") in
  r = ([], Threw TypeError (atRest "two lines")) ∧ ¬ quiet r.
Proof.
  split; [reflexivity|].
  intros (_ & _ & s' & Hret). cbn in Hret. discriminate Hret.
Qed.

(** C1, amended.  On an ArrowUp or ArrowDown keydown with no current
    selection rectangle the handler does not navigate, and it fails: a
    [TypeError] is thrown before any effect, so no callback is invoked,
    the default action is not suppressed and the component is unchanged. *)
Theorem vertical_arrow_without_range_rect host env d evt s :
  pressed (vName d) (vCode d) evt →
  currentRangeRect env = None →
  keyDown host env evt s = ([], Threw TypeError s).
Proof.
  intros Hk Hr. rewrite (keyDown_vertical _ _ _ _ Hk).
  destruct d; unfold navigateUp, navigateDown; rewrite Hr;
    destruct (getElementRect _ _); by rewrite ?deref_Some, deref_None.
Qed.

Lemma vertical_arrow_without_range_rect_witness :
  keyDown silentHost (caretEnv "two" " lines" twoLines None)
    (keyCoded 40 false) (atRest "two lines") =
  ([], Threw TypeError (atRest "two lines")).
Proof.
  apply (vertical_arrow_without_range_rect _ _ GoDown).
  - right. reflexivity.
  - reflexivity.
Defined.

(** ** The render-suppression flag *)

(** C2, as claimed, fails: Enter between "hello" and " world".  The write
    of "hello" into the block renders it, ahead of the request for the new
    block. *)
Lemma split_write_renders :
  let r := keyDown silentHost (caretEnv "hello" " world" [] None)
             (keyNamed "Enter" false) (atRest "hello world") in
  r.1 = [EStopPropagation; EPreventDefault; EDom (SetText "hello");
         EHost BlockContentUpdatedLocally;
         EHost (NewBlockInsertedLocally " world")] ∧
  ¬ noRenderBefore (NewBlockInsertedLocally " world") r.1.
Proof.
  split; [reflexivity|].
  intros H.
  specialize (H [EStopPropagation; EPreventDefault; EDom (SetText "hello");
                 EHost BlockContentUpdatedLocally] [] eq_refl).
  discriminate H.
Qed.

(** C2, amended.  On an Enter keydown without Shift, the flag being down
    as it is between handlers, the write of the text before the selection
    is not guarded: where that text differs from the block's content,
    [renderBlockContent] runs because of the write - it shows the text, or
    the placeholder when the text is empty - before the host hears of the
    change and before it is asked for the new block; where the text equals
    the content nothing changed and no observer runs. *)
Theorem enter_write_is_rendered host env evt s :
  pressed "Enter" 13 evt →
  shiftKey evt = false →
  isUpdatingBlockContent s = false →
  let ts := getManipulation env (element env) in
  let before := textBeforeSelection ts in
  let inserted := NewBlockInsertedLocally (textAfterSelection ts) in
  ∃ post,
    (keyDown host env evt s).1 =
      [EStopPropagation; EPreventDefault] ++
      (if bool_decide (content (block s) = Some before) then []
       else [EDom (renderOf (Some before))]) ++
      EHost BlockContentUpdatedLocally :: post ∧
    hostCalls post = [inserted].
Proof.
  intros Hk Hs Hg ts before inserted.
  rewrite (keyDown_enter _ _ _ Hk), Hs.
  unfold newBlockAtSplit. fold ts. fold before. fold inserted.
  pose proof (setBlockContentFromInput_run host before false s Hg) as Hrun.
  destruct (callHost_only_dom host inserted
              (withContent
                 (contentAfter (Some before)
                    (host BlockContentUpdatedLocally))
                 (written before s))) as (ds & s2 & Hins).
  rewrite (bind_run (emit EStopPropagation) _ s [EStopPropagation] () s)
    by done.
  rewrite (bind_run (emit EPreventDefault) _ s [EPreventDefault] () s)
    by done.
  rewrite (bind_run _ _ _ _ _ _ Hrun), Hins. cbn [fst snd].
  exists ((EDom <$> unsuppressedRenders (Some before)
                      (host BlockContentUpdatedLocally)) ++
          EHost inserted :: (EDom <$> ds)).
  split.
  - cbn [unsuppressedRenders]. case_bool_decide; cbn; by rewrite <- ?app_assoc.
  - rewrite hostCalls_app, hostCalls_dom. cbn.
    pose proof hostCalls_dom as Hd. unfold hostCalls in Hd. by rewrite Hd.
Qed.

Lemma enter_write_is_rendered_witness :
  ∃ post,
    (keyDown silentHost (caretEnv "hello" " world" [] None)
       (keyNamed "Enter" false) (atRest "hello world")).1 =
      [EStopPropagation; EPreventDefault] ++
      [EDom (SetText "hello")] ++
      EHost BlockContentUpdatedLocally :: post ∧
    hostCalls post = [NewBlockInsertedLocally " world"].
Proof.
  apply (enter_write_is_rendered silentHost
           (caretEnv "hello" " world" [] None)
           (keyNamed "Enter" false) (atRest "hello world")).
  - left. reflexivity.
  - reflexivity.
  - reflexivity.
Defined.

(** C7.  With [preventRerender = true] the content write renders nothing.
    The assignment of line 255, made in the state that lines 253-254 leave
    (flag up, old content saved), has no effect whatever the old content
    was: the observer it may trigger finds the flag up and returns.  The
    run of the whole call therefore starts with the host notification, and
    its only DOM writes are those of assignments the host makes afterwards,
    once the flag is down again. *)
Theorem guarded_write_renders_nothing host c s :
  let s1 := withLastContent (content (block s)) (withUpdating true s) in
  let r := setBlockContentFromInput host c true s in
  let hostWs := host BlockContentUpdatedLocally in
  set_block_content (Some c) s1 = ([], Returned () (withContent (Some c) s1)) ∧
  r = (EHost BlockContentUpdatedLocally ::
         (EDom <$> unsuppressedRenders (Some c) hostWs),
       Returned () (withContent (contentAfter (Some c) hostWs) (written c s))) ∧
  domWrites r.1 = unsuppressedRenders (Some c) hostWs.
Proof.
  intros s1 r hostWs.
  assert (r = (EHost BlockContentUpdatedLocally ::
                 (EDom <$> unsuppressedRenders (Some c) hostWs),
               Returned ()
                 (withContent (contentAfter (Some c) hostWs) (written c s))))
    as Hr.
  { subst r. rewrite setBlockContentFromInput_guarded.
    by rewrite callHost_unguarded. }
  split_and!.
  - by apply set_block_content_guarded.
  - exact Hr.
  - rewrite Hr. cbn [fst].
    change (domWrites (EHost ?x :: ?tr)) with (domWrites tr).
    apply domWrites_dom.
Qed.

(** C10.  A call of [setBlockContentFromInput] made with the flag down, as
    it is between handlers, or with [preventRerender = true], returns with
    the flag down, the previous content in [block.lastContent] and the new
    content in [block.content] (unless the host assigned the content in
    its turn), and notifies the host exactly once.  The notification comes
    after the flag is released: each assignment that the host makes to the
    content while handling it, and that changes the content, is rendered. *)
Theorem setBlockContentFromInput_contract host c p s :
  p = true ∨ isUpdatingBlockContent s = false →
  let r := setBlockContentFromInput host c p s in
  let hostWs := host BlockContentUpdatedLocally in
  ∃ pre s',
    r = (pre ++ EHost BlockContentUpdatedLocally ::
           (EDom <$> unsuppressedRenders (Some c) hostWs),
         Returned () s') ∧
    hostCalls pre = [] ∧
    hostCalls r.1 = [BlockContentUpdatedLocally] ∧
    isUpdatingBlockContent s' = false ∧
    lastContent (block s') = content (block s) ∧
    content (block s') = contentAfter (Some c) hostWs.
Proof.
  intros Hpre r hostWs.
  assert (∃ ds,
    r = ((EDom <$> ds) ++ EHost BlockContentUpdatedLocally ::
           (EDom <$> unsuppressedRenders (Some c) hostWs),
         Returned ()
           (withContent (contentAfter (Some c) hostWs) (written c s))))
    as [ds Hr].
  { subst r. destruct p.
    - exists []. rewrite setBlockContentFromInput_guarded.
      by rewrite callHost_unguarded.
    - destruct Hpre as [|Hg]; [done|]. eexists.
      by apply setBlockContentFromInput_run. }
  eexists (EDom <$> ds), _. split_and!; [exact Hr | | | done..].
  - apply hostCalls_dom.
  - rewrite Hr. cbn [fst]. rewrite hostCalls_app, hostCalls_dom.
    change (hostCalls (EHost ?x :: ?tr)) with (x :: hostCalls tr).
    by rewrite hostCalls_dom.
Qed.

Lemma setBlockContentFromInput_contract_witness :
  let r := setBlockContentFromInput
             (λ c, match c with
                   | BlockContentUpdatedLocally => [Some "HELLO"]
                   | _ => []
                   end)
             "hello" false (atRest "hello world") in
  ∃ pre s',
    r = (pre ++ [EHost BlockContentUpdatedLocally;
                 EDom (SetText "HELLO")], Returned () s') ∧
    hostCalls pre = [] ∧
    hostCalls r.1 = [BlockContentUpdatedLocally] ∧
    isUpdatingBlockContent s' = false ∧
    lastContent (block s') = Some "hello world" ∧
    content (block s') = Some "HELLO".
Proof.
  apply (setBlockContentFromInput_contract
           (λ c, match c with
                 | BlockContentUpdatedLocally => [Some "HELLO"]
                 | _ => []
                 end)
           "hello" false (atRest "hello world")).
  right. reflexivity.
Defined.

(** ** Paste *)

(** C8.  A paste cancels the default action and inserts, as text, the
    [text/plain] entry of the clipboard (the empty string when there is
    none): the only command issued is [insertText] with that entry.  Two
    pastes whose clipboards agree on [text/plain] behave alike, whatever
    else the clipboards hold, [text/html] included. *)
Theorem paste_inserts_plain_text_only evt1 evt2 s :
  clipboardData evt1 !! "text/plain" = clipboardData evt2 !! "text/plain" →
  paste evt1 s =
    ([EPreventDefault;
      EExecCommand "insertText" false
        (getData (clipboardData evt1) "text/plain")],
     Returned () s) ∧
  paste evt1 s = paste evt2 s.
Proof.
  intros Heq. split; [done|].
  unfold paste, getData. by rewrite Heq.
Qed.

Lemma paste_inserts_plain_text_only_witness :
  paste {| clipboardData := richClipboard "hi" "<b>hi</b>" |} (atRest "") =
    ([EPreventDefault; EExecCommand "insertText" false "hi"],
     Returned () (atRest "")) ∧
  paste {| clipboardData := richClipboard "hi" "<b>hi</b>" |} (atRest "") =
  paste {| clipboardData :=
             richClipboard "hi" "<script>alert(1)</script>" |} (atRest "").
Proof.
  apply (paste_inserts_plain_text_only
           {| clipboardData := richClipboard "hi" "<b>hi</b>" |}
           {| clipboardData :=
                richClipboard "hi" "<script>alert(1)</script>" |}).
  reflexivity.
Defined.

(** ** Text extraction *)

Lemma strip_final_newline_app t : strip_final_newline (t +:+ lineFeed) = t.
Proof.
  induction t as [|c t IH]; [done|].
  destruct t as [|c' t]; [done|].
  change (String c (strip_final_newline (String c' t +:+ lineFeed)) =
          String c (String c' t)).
  by rewrite IH.
Qed.

Lemma strip_final_newline_id s :
  (∀ t, s ≠ t +:+ lineFeed) → strip_final_newline s = s.
Proof.
  induction s as [|c s IH]; intros Hs; [done|].
  cbn [strip_final_newline]. destruct s as [|c' s].
  - destruct (Ascii.eqb_spec c "010"%char) as [->|]; [|done].
    by destruct (Hs "").
  - rewrite IH; [done|]. intros t Ht. apply (Hs (String c t)).
    change (String c (String c' s) = String c (t +:+ lineFeed)).
    by rewrite Ht.
Qed.

Lemma onlyChildIsBR_test el :
  bool_decide (length (childNodes el) = 1%nat)
  && bool_decide (nodeName <$> firstChild el = Some "BR") = true ↔
  onlyChildIsBR el.
Proof.
  unfold onlyChildIsBR, firstChild.
  rewrite andb_true_iff, !bool_decide_eq_true. split.
  - intros [Hlen Hbr]. destruct (childNodes el) as [|n [|]]; try done.
    exists n. split; [done|]. cbn in Hbr. congruence.
  - intros (n & -> & Hn). cbn. by rewrite Hn.
Qed.

(** C9.  An element whose only child is a BR node has the empty text.
    Any other element has its rendered text - its [innerText] where the
    browser has one and it is not empty, its [textContent] otherwise: as
    it is outside Firefox; on Firefox without its final line feed if it
    ends with one - one only - and as it is if not. *)
Theorem getElementText_spec isFirefox el :
  (onlyChildIsBR el → getElementText isFirefox el = "") ∧
  (¬ onlyChildIsBR el →
     ∀ shown,
       (innerText el = Some shown ∧ shown ≠ "") ∨
       ((innerText el = None ∨ innerText el = Some "") ∧
        textContent el = shown) →
       (isFirefox = false → getElementText isFirefox el = shown) ∧
       (isFirefox = true →
          ∀ t, shown = t +:+ lineFeed → getElementText isFirefox el = t) ∧
       (isFirefox = true →
          (∀ t, shown ≠ t +:+ lineFeed) →
          getElementText isFirefox el = shown)).
Proof.
  pose proof (onlyChildIsBR_test el) as Htest. unfold getElementText.
  destruct (bool_decide _ && bool_decide _).
  - split; [done|]. intros Hn. destruct Hn. by apply Htest.
  - split.
    + intros Hbr. apply Htest in Hbr. done.
    + intros _ shown Hshown.
      assert (renderedText el = shown) as ->.
      { unfold renderedText, truthy.
        destruct Hshown as [[-> Hne]|[[->| ->] <-]]; [|done..].
        by rewrite bool_decide_eq_false_2. }
      split_and!.
      * by intros ->.
      * intros -> t ->. apply strip_final_newline_app.
      * intros -> Hno. by apply strip_final_newline_id.
Qed.

Lemma getElementText_spec_witness :
  getElementText true emptyElement = "" ∧
  getElementText false (brokenLine (Some ("a" +:+ lineFeed +:+ "b"))) =
    "a" +:+ lineFeed +:+ "b" ∧
  getElementText true
    (brokenLine (Some ("a" +:+ lineFeed +:+ "b" +:+ lineFeed))) =
    "a" +:+ lineFeed +:+ "b" ∧
  getElementText true (brokenLine (Some ("a" +:+ lineFeed +:+ "b"))) =
    "a" +:+ lineFeed +:+ "b" ∧
  getElementText false (brokenLine None) = "ab" ∧
  getElementText false (brokenLine (Some "")) = "ab".
Proof.
  assert (∀ o, ¬ onlyChildIsBR (brokenLine o)) as Hno.
  { intros o (n & Hc & _). discriminate Hc. }
  assert (∀ t, t ≠ "" →
            innerText (brokenLine (Some t)) = Some t ∧ t ≠ "" ∨
            (innerText (brokenLine (Some t)) = None ∨
             innerText (brokenLine (Some t)) = Some "") ∧
            textContent (brokenLine (Some t)) = t) as Hin.
  { intros t Ht. left. by split. }
  split_and!.
  - apply (proj1 (getElementText_spec true emptyElement)).
    unfold onlyChildIsBR. exists {| nodeName := "BR" |}.
    split; reflexivity.
  - pose proof (proj2 (getElementText_spec false
                         (brokenLine (Some ("a" +:+ lineFeed +:+ "b"))))
                  (Hno _) ("a" +:+ lineFeed +:+ "b")
                  (Hin ("a" +:+ lineFeed +:+ "b") ltac:(discriminate))) as H.
    exact (proj1 H eq_refl).
  - pose proof (proj2 (getElementText_spec true
                         (brokenLine
                            (Some ("a" +:+ lineFeed +:+ "b" +:+ lineFeed))))
                  (Hno _) ("a" +:+ lineFeed +:+ "b" +:+ lineFeed)
                  (Hin ("a" +:+ lineFeed +:+ "b" +:+ lineFeed)
                     ltac:(discriminate))) as H.
    exact (proj1 (proj2 H) eq_refl ("a" +:+ lineFeed +:+ "b") eq_refl).
  - pose proof (proj2 (getElementText_spec true
                         (brokenLine (Some ("a" +:+ lineFeed +:+ "b"))))
                  (Hno _) ("a" +:+ lineFeed +:+ "b")
                  (Hin ("a" +:+ lineFeed +:+ "b") ltac:(discriminate))) as H.
    apply (proj2 (proj2 H) eq_refl).
    intros t Ht. pose proof (f_equal strip_final_newline Ht) as Hs.
    rewrite strip_final_newline_app in Hs. subst t. discriminate Ht.
  - pose proof (proj2 (getElementText_spec false (brokenLine None))
                  (Hno _) "ab"
                  (or_intror (conj (or_introl eq_refl) eq_refl))) as H.
    exact (proj1 H eq_refl).
  - pose proof (proj2 (getElementText_spec false (brokenLine (Some "")))
                  (Hno _) "ab"
                  (or_intror (conj (or_intror eq_refl) eq_refl))) as H.
    exact (proj1 H eq_refl).
Defined.

(** ** The flag is down between handlers *)

Create HintDb flag.

Lemma keepsFlagDown_ret {A} (a : A) : keepsFlagDown (mret a).
Proof. by intros s Hg. Qed.

Lemma keepsFlagDown_emit e : keepsFlagDown (emit e).
Proof. by intros s Hg. Qed.

Lemma keepsFlagDown_gets {A} (f : Session → A) : keepsFlagDown (gets f).
Proof. by intros s Hg. Qed.

Lemma keepsFlagDown_deref {A} (o : option A) : keepsFlagDown (deref o).
Proof. by destruct o; intros s Hg. Qed.

Lemma keepsFlagDown_bind {A B} (m : M A) (f : A → M B) :
  keepsFlagDown m → (∀ a, keepsFlagDown (f a)) → keepsFlagDown (m ≫= f).
Proof.
  intros Hm Hf s Hg. specialize (Hm s Hg).
  unfold mbind, M_bind. destruct (m s) as [tr [a s1|e s1]]; [|done].
  specialize (Hf a s1 Hm). by destruct (f a s1).
Qed.

Lemma keepsFlagDown_callHost host c : keepsFlagDown (callHost host c).
Proof.
  intros s Hg. destruct (callHost_shape host c s) as (ds & s' & -> & _ & _ & Hs).
  cbn. by rewrite Hs.
Qed.

Lemma keepsFlagDown_setBlockContentFromInput host c p :
  keepsFlagDown (setBlockContentFromInput host c p).
Proof. intros s Hg. by rewrite setBlockContentFromInput_run. Qed.

#[local] Hint Resolve keepsFlagDown_ret keepsFlagDown_emit keepsFlagDown_gets
  keepsFlagDown_deref keepsFlagDown_callHost
  keepsFlagDown_setBlockContentFromInput : flag.

Ltac flag :=
  repeat first
    [ solve [auto with flag]
    | match goal with
      | |- keepsFlagDown (if ?b then _ else _) => destruct b
      end
    | apply keepsFlagDown_bind; [|intros ?] ].

(** Every handler entered with the flag down leaves it down, whether it
    returns or throws: [setBlockContentFromInput] is never entered with
    the flag up. *)
Lemma handlers_keep_flag_down host isFirefox env :
  (∀ evt, keepsFlagDown (keyDown host env evt)) ∧
  keepsFlagDown (input host isFirefox env) ∧
  (∀ evt, keepsFlagDown (paste evt)).
Proof.
  split_and!.
  - intros evt.
    unfold keyDown, navigateLeft, navigateUp, navigateRight, navigateDown,
      backspace, newBlockAtSplit.
    cbn zeta. flag.
  - unfold input. cbn zeta. flag.
  - intros evt. unfold paste. flag.
Qed.

(** ** The ways a keydown can end *)

Lemma isKey_pressed name code evt :
  isKey name code (keyValue evt) = true ↔ pressed name code evt.
Proof.
  unfold isKey, pressed. rewrite orb_true_iff, !bool_decide_eq_true. done.
Qed.

Lemma pressed_apart name code name' code' evt :
  name ≠ name' → code ≠ code' →
  pressed name code evt → ¬ pressed name' code' evt.
Proof. intros Hn Hc [Hv|Hv] [Hv'|Hv']; congruence. Qed.

Section Outcomes.

Variable host : HostCall → list (option string).

Lemma callHost_state c s :
  ∃ ds,
    callHost host c s =
      (EHost c :: (EDom <$> ds),
       Returned () (withContent (contentAfter (content (block s)) (host c)) s)).
Proof.
  unfold callHost. run. destruct (isUpdatingBlockContent s) eqn:Hg.
  - rewrite hostWrites_guarded by done. by exists [].
  - rewrite hostWrites_unguarded by done. by eexists.
Qed.

Lemma commit_state (f : Block → HostCall) s :
  ∃ ds,
    (emit EStopPropagation;; emit EPreventDefault;;
     b ← gets block; callHost host (f b)) s =
      (EStopPropagation :: EPreventDefault :: EHost (f (block s)) ::
         (EDom <$> ds),
       Returned ()
         (withContent
            (contentAfter (content (block s)) (host (f (block s)))) s)).
Proof.
  destruct (callHost_state (f (block s)) s) as [ds H]. exists ds.
  rewrite (bind_run (emit EStopPropagation) _ s [EStopPropagation] () s)
    by done.
  rewrite (bind_run (emit EPreventDefault) _ s [EPreventDefault] () s)
    by done.
  rewrite (bind_run (gets block) _ s [] (block s) s) by done.
  by rewrite H.
Qed.

Lemma set_block_content_state v s :
  ∃ ds, set_block_content v s = (EDom <$> ds, Returned () (withContent v s)).
Proof.
  destruct (isUpdatingBlockContent s) eqn:Hg.
  - exists []. by apply set_block_content_guarded.
  - eexists. by apply set_block_content_unguarded.
Qed.

Lemma newBlockAtSplit_state env s :
  let ts := getManipulation env (element env) in
  let inserted := NewBlockInsertedLocally (textAfterSelection ts) in
  ∃ ds1 ds2 ds3,
    newBlockAtSplit host env s =
      ((EDom <$> ds1) ++ EHost BlockContentUpdatedLocally ::
         (EDom <$> ds2) ++ EHost inserted :: (EDom <$> ds3),
       Returned ()
         (withContent
            (contentAfter (Some (textBeforeSelection ts))
               (host BlockContentUpdatedLocally ++ host inserted))
            (withLastContent (content (block s)) s))).
Proof.
  intros ts inserted. unfold newBlockAtSplit. fold ts. fold inserted.
  set (s1 := withLastContent (content (block s)) s).
  destruct (set_block_content_state (Some (textBeforeSelection ts)) s1)
    as [ds1 Hw].
  destruct (callHost_state BlockContentUpdatedLocally
              (withContent (Some (textBeforeSelection ts)) s1)) as [ds2 Hn].
  destruct (callHost_state inserted
              (withContent
                 (contentAfter (Some (textBeforeSelection ts))
                    (host BlockContentUpdatedLocally)) s1)) as [ds3 Hi].
  exists ds1, ds2, ds3.
  assert (setBlockContentFromInput host (textBeforeSelection ts) false s =
            ((EDom <$> ds1) ++ EHost BlockContentUpdatedLocally ::
               (EDom <$> ds2),
             Returned ()
               (withContent
                  (contentAfter (Some (textBeforeSelection ts))
                     (host BlockContentUpdatedLocally)) s1))) as Hset.
  { unfold setBlockContentFromInput. run. fold s1. rewrite Hw.
    cbn. by rewrite Hn. }
  rewrite (bind_run _ _ _ _ _ _ Hset), Hi. cbn [fst snd].
  rewrite contentAfter_app. by rewrite <- app_assoc.
Qed.

Lemma keyDown_outcome env evt s :
  KeyOutcome host env evt s (keyDown host env evt s).
Proof.
  assert (∀ name code f,
    name ≠ "Enter" → code ≠ 13%Z → pressed name code evt →
    KeyOutcome host env evt s
      ((emit EStopPropagation;; emit EPreventDefault;;
        b ← gets block; callHost host (f b)) s)) as Hcommit.
  { intros name code f Hn Hc Hp. destruct (commit_state f s) as [ds ->].
    apply KeyCommitted. intros [He _].
    by apply (pressed_apart _ _ _ _ _ Hn Hc Hp). }
  assert (∀ d, pressed (vName d) (vCode d) evt →
    KeyOutcome host env evt s
      (match d with
       | GoUp => navigateUp host env
       | GoDown => navigateDown host env
       end s)) as Hvert.
  { intros d Hp. pose proof (getElementRect_edge d (element env)) as Hg.
    destruct (vEdge d (element env)) as [edge|] eqn:He.
    - destruct (currentRangeRect env) as [range|] eqn:Hr.
      + destruct d; unfold navigateUp, navigateDown;
          rewrite Hg, deref_Some, Hr, deref_Some; cbn zeta;
          destruct (numGt _ _); try apply KeyDeferred.
        * by apply (Hcommit "ArrowUp" 38%Z (λ b, OnNavigateUp b range)).
        * by apply (Hcommit "ArrowDown" 40%Z (λ b, OnNavigateDown b range)).
      + destruct d; unfold navigateUp, navigateDown;
          rewrite Hg, deref_Some, Hr, deref_None;
          by apply (KeyFaulted _ _ _ _ _ Hp); right.
    - destruct d; unfold navigateUp, navigateDown;
        rewrite Hg, deref_None; by apply (KeyFaulted _ _ _ _ _ Hp); left. }
  unfold keyDown. cbn zeta.
  destruct (isKey "ArrowLeft" 37 _) eqn:K1.
  { apply isKey_pressed in K1. unfold navigateLeft. cbn zeta.
    destruct (truthy _); [apply KeyDeferred|].
    by apply (Hcommit "ArrowLeft" 37%Z OnNavigateLeft). }
  destruct (isKey "ArrowUp" 38 _) eqn:K2.
  { apply isKey_pressed in K2. by apply (Hvert GoUp). }
  destruct (isKey "ArrowRight" 39 _) eqn:K3.
  { apply isKey_pressed in K3. unfold navigateRight. cbn zeta.
    destruct (truthy _); [apply KeyDeferred|].
    by apply (Hcommit "ArrowRight" 39%Z OnNavigateRight). }
  destruct (isKey "ArrowDown" 40 _) eqn:K4.
  { apply isKey_pressed in K4. by apply (Hvert GoDown). }
  destruct (isKey "Backspace" 8 _) eqn:K5.
  { apply isKey_pressed in K5. unfold backspace. cbn zeta.
    destruct (_ || _); [apply KeyDeferred|].
    by apply (Hcommit "Backspace" 8%Z (λ b, OnBlockDeletedLocally b _)). }
  destruct (isKey "Enter" 13 _) eqn:K6; [|apply KeyDeferred].
  apply isKey_pressed in K6.
  destruct (shiftKey evt) eqn:Hs; [apply KeyDeferred|].
  destruct (newBlockAtSplit_state env s) as (ds1 & ds2 & ds3 & Hrun).
  rewrite (bind_run (emit EStopPropagation) _ s [EStopPropagation] () s)
    by done.
  rewrite (bind_run (emit EPreventDefault) _ s [EPreventDefault] () s)
    by done.
  rewrite Hrun. by apply KeySplit.
Qed.

End Outcomes.

(** ** Properties of [keyDown] as a whole *)

(** X1.  [keyDown] throws exactly on an ArrowUp or ArrowDown that finds no
    line box on its side of the element or no selection rectangle; the
    throw comes before any effect and leaves the component as it was.
    Every other keydown returns. *)
Theorem keyDown_throws_iff host env evt s :
  let r := keyDown host env evt s in
  (r = ([], Threw TypeError s) ↔
     ∃ d, pressed (vName d) (vCode d) evt ∧
          (vEdge d (element env) = None ∨ currentRangeRect env = None)) ∧
  (r = ([], Threw TypeError s) ∨ ∃ s', r.2 = Returned () s').
Proof.
  intros r. subst r. split; [split|].
  - intros Hr. destruct (keyDown_outcome host env evt s) as [|d Hp Hm| |];
      try discriminate Hr. by exists d.
  - intros (d & Hp & Hm). rewrite (keyDown_vertical _ _ _ _ Hp).
    pose proof (getElementRect_edge d (element env)) as Hg.
    destruct d; unfold navigateUp, navigateDown; rewrite Hg;
      (destruct (vEdge _ _); [|by rewrite deref_None]);
      (destruct Hm as [|Hr]; [done|]);
      by rewrite deref_Some, Hr, deref_None.
  - destruct (keyDown_outcome host env evt s); eauto.
Qed.

Lemma keyDown_throws_iff_witness :
  keyDown silentHost
    (caretEnv "gone" ""
       [] (Some (rect 0 18 0 1)))
    (keyNamed "ArrowDown" false) (atRest "gone") =
  ([], Threw TypeError (atRest "gone")).
Proof.
  apply (keyDown_throws_iff silentHost). exists GoDown. split.
  - left. reflexivity.
  - left. reflexivity.
Defined.

(** X2.  A keydown either has no effect at all, or it stops the
    propagation of the event, cancels its default action and then acts on
    the host and the DOM only, calling the host once or twice.  So the
    default action is cancelled exactly when propagation is stopped, and
    exactly when the host is called; no editing command is ever issued. *)
Theorem keyDown_cancels_iff_it_acts host env evt s :
  let tr := (keyDown host env evt s).1 in
  (tr = [] ∨
   ∃ rest, tr = EStopPropagation :: EPreventDefault :: rest ∧
           Forall hostOrDom rest ∧
           (1 ≤ length (hostCalls rest) ≤ 2)%nat) ∧
  (EPreventDefault ∈ tr ↔ EStopPropagation ∈ tr) ∧
  (EPreventDefault ∈ tr ↔ hostCalls tr ≠ []).
Proof.
  intros tr.
  assert (∀ ds : list DomWrite, Forall hostOrDom (EDom <$> ds)) as Hdom.
  { intros ds. apply Forall_fmap, Forall_true. done. }
  assert (tr = [] ∨
          ∃ rest, tr = EStopPropagation :: EPreventDefault :: rest ∧
                  Forall hostOrDom rest ∧
                  (1 ≤ length (hostCalls rest) ≤ 2)%nat) as Hshape.
  { subst tr.
    destruct (keyDown_outcome host env evt s) as [| |c ds|ds1 ds2 ds3];
      [by left | by left | right | right]; eexists; (split; [reflexivity|]).
    - split; [by constructor|].
      change (hostCalls (EHost c :: ?t)) with (c :: hostCalls t).
      rewrite hostCalls_dom. cbn. lia.
    - split.
      + apply Forall_app. split; [done|]. constructor; [done|].
        apply Forall_app. split; [done|]. by constructor.
      + rewrite hostCalls_app, hostCalls_dom.
        change (hostCalls (EHost ?c :: ?t)) with (c :: hostCalls t).
        rewrite hostCalls_app, hostCalls_dom.
        change (hostCalls (EHost ?c :: ?t)) with (c :: hostCalls t).
        rewrite hostCalls_dom. cbn. lia. }
  split; [exact Hshape|].
  destruct Hshape as [->|(rest & -> & Hrest & Hn)].
  - split; split; intros H; try done; by apply elem_of_nil in H.
  - split; split; intros _.
    + apply elem_of_cons. by left.
    + apply elem_of_cons. right. apply elem_of_cons. by left.
    + change (hostCalls rest ≠ []). intros E. rewrite E in Hn. cbn in Hn. lia.
    + apply elem_of_cons. right. apply elem_of_cons. by left.
Qed.

(** X3.  Except on Enter without Shift, [keyDown] itself changes nothing
    in the component: when it ends - returning or throwing - the component
    is as it was, but for the content where the host assigned it during a
    callback. *)
Theorem keyDown_leaves_block_to_host host env evt s :
  ¬ (pressed "Enter" 13 evt ∧ shiftKey evt = false) →
  let r := keyDown host env evt s in
  finalState r.2 =
    withContent
      (contentAfter (content (block s)) (hostAssignments host r.1)) s.
Proof.
  intros Hne r. subst r.
  destruct (keyDown_outcome host env evt s) as [| |c ds He|ds1 ds2 ds3 Hp Hs].
  - cbn. by rewrite withContent_same.
  - cbn. by rewrite withContent_same.
  - cbn [fst snd finalState]. unfold hostAssignments.
    change (hostCalls (?a :: ?b :: EHost c :: ?t)) with (c :: hostCalls t).
    rewrite hostCalls_dom. cbn. by rewrite app_nil_r.
  - by destruct Hne.
Qed.

Lemma keyDown_leaves_block_to_host_witness :
  finalState
    (keyDown silentHost (caretEnv "" "tail" [] None)
       (keyNamed "Backspace" false) (atRest "tail")).2 =
  atRest "tail".
Proof.
  apply (keyDown_leaves_block_to_host silentHost
           (caretEnv "" "tail" [] None) (keyNamed "Backspace" false)
           (atRest "tail")).
  intros [[H|H] _]; discriminate H.
Defined.

(** X4.  A keydown whose switched value - the key name when the event
    has one, else the key code - is none of the six names and none of the
    six codes has no effect.  A name the switch does not know hides the
    code: the legacy name "Left" with code 37 is ignored. *)
Theorem keyDown_ignores_other_keys host env evt s :
  Forall (λ nc, ¬ pressed nc.1 nc.2 evt) keyTable →
  keyDown host env evt s = ([], Returned () s).
Proof.
  intros Hno.
  assert (∀ name code, (name, code) ∈ keyTable →
            isKey name code (keyValue evt) = false) as Hk.
  { intros name code Hin. apply not_true_is_false.
    rewrite isKey_pressed. by apply (proj1 (Forall_forall _ _) Hno _ Hin). }
  unfold keyDown. cbn zeta.
  rewrite !Hk; [done|unfold keyTable; set_solver..].
Qed.

Lemma keyDown_ignores_other_keys_witness :
  keyDown silentHost (caretEnv "" "abc" [] None)
    {| key := Some "Left"; keyCode := 37; shiftKey := false |}
    (atRest "abc") =
  ([], Returned () (atRest "abc")).
Proof.
  apply keyDown_ignores_other_keys.
  repeat constructor; intros [H|H]; discriminate H.
Defined.

(** X5.  For each of the six keys, an event that names the key and an
    event that carries only its legacy code are handled alike, the Shift
    key being in the same state. *)
Theorem keyDown_name_or_code host env name code evt1 evt2 s :
  (name, code) ∈ keyTable →
  pressed name code evt1 →
  pressed name code evt2 →
  shiftKey evt1 = shiftKey evt2 →
  keyDown host env evt1 s = keyDown host env evt2 s.
Proof.
  intros Hin H1 H2 Hs. unfold keyTable in Hin.
  repeat (apply elem_of_cons in Hin as [[= -> ->]|Hin]);
    [ | | | | | | by apply elem_of_nil in Hin].
  - by rewrite (keyDown_horizontal _ _ GoLeft evt1 H1),
               (keyDown_horizontal _ _ GoLeft evt2 H2).
  - by rewrite (keyDown_vertical _ _ GoUp evt1 H1),
               (keyDown_vertical _ _ GoUp evt2 H2).
  - by rewrite (keyDown_horizontal _ _ GoRight evt1 H1),
               (keyDown_horizontal _ _ GoRight evt2 H2).
  - by rewrite (keyDown_vertical _ _ GoDown evt1 H1),
               (keyDown_vertical _ _ GoDown evt2 H2).
  - by rewrite (keyDown_backspace _ _ evt1 H1), (keyDown_backspace _ _ evt2 H2).
  - by rewrite (keyDown_enter _ _ evt1 H1), (keyDown_enter _ _ evt2 H2), Hs.
Qed.

Lemma keyDown_name_or_code_witness :
  keyDown silentHost (caretEnv "" "abc" [] None)
    (keyNamed "ArrowLeft" false) (atRest "abc") =
  keyDown silentHost (caretEnv "" "abc" [] None)
    (keyCoded 37 false) (atRest "abc").
Proof.
  apply (keyDown_name_or_code _ _ "ArrowLeft" 37%Z).
  - unfold keyTable. apply elem_of_cons. left. reflexivity.
  - left. reflexivity.
  - right. reflexivity.
  - reflexivity.
Defined.

(** X6.  The Shift key matters to Enter only: for any other key the
    handler does the same with and without it.  Shift+Arrow at the edge of
    a block leaves the block instead of extending the selection. *)
Theorem keyDown_ignores_shift host env evt b s :
  ¬ pressed "Enter" 13 evt →
  keyDown host env (withShift b evt) s = keyDown host env evt s.
Proof.
  intros Hne. unfold keyDown. cbn zeta.
  change (keyValue (withShift b evt)) with (keyValue evt).
  repeat (destruct (isKey _ _ (keyValue evt)) eqn:?; [reflexivity|]).
  destruct (isKey "Enter" 13 (keyValue evt)) eqn:K; [|reflexivity].
  by apply isKey_pressed in K.
Qed.

Lemma keyDown_ignores_shift_witness :
  keyDown silentHost (caretEnv "" "abc" [] None)
    (withShift true (keyNamed "ArrowLeft" false)) (atRest "abc") =
  keyDown silentHost (caretEnv "" "abc" [] None)
    (keyNamed "ArrowLeft" false) (atRest "abc").
Proof.
  apply keyDown_ignores_shift. intros [H|H]; discriminate H.
Defined.

(** ** Geometry query *)

(** X7.  [getElementRect] is undefined exactly for an element without
    line boxes.  For side ['top'] it is the first line box; for any other
    side, not only ['bottom'], it is the last; for an element of one line
    every side gives that line. *)
Theorem getElementRect_sides el side :
  (getElementRect el side = None ↔ clientRects el = []) ∧
  getElementRect el "top" = head (clientRects el) ∧
  (side ≠ "top" → getElementRect el side = last (clientRects el)) ∧
  (∀ r, clientRects el = [r] → getElementRect el side = Some r).
Proof.
  assert (∀ sd, sd ≠ "top" → getElementRect el sd = last (clientRects el))
    as Hlast.
  { intros sd Hsd. unfold getElementRect. rewrite bool_decide_eq_false_2 by done.
    rewrite last_lookup. by destruct (clientRects el). }
  assert (getElementRect el "top" = head (clientRects el)) as Htop.
  { unfold getElementRect. cbn. by rewrite head_lookup. }
  split_and!; [|exact Htop|exact (Hlast side)|].
  - destruct (decide (side = "top")) as [->|Hs].
    + rewrite Htop. destruct (clientRects el); split; done.
    + rewrite (Hlast _ Hs). apply last_None.
  - intros r Hr. destruct (decide (side = "top")) as [->|Hs].
    + by rewrite Htop, Hr.
    + by rewrite (Hlast _ Hs), Hr.
Qed.

Lemma getElementRect_sides_witness :
  getElementRect (textElement "two lines" twoLines) "left" =
  Some (rect 118 136 0 120).
Proof.
  apply (proj1 (proj2 (proj2
           (getElementRect_sides (textElement "two lines" twoLines) "left")))).
  discriminate.
Defined.

(** ** Input *)

(** X8.  An input event stores the element's text in the block and keeps
    the previous content in [lastContent].  It neither cancels the event
    nor stops it, tells the host once, and writes nothing to the DOM: the
    DOM writes of the run are those of the host's own assignments. *)
Theorem input_syncs_model host isFirefox env s :
  let text := getElementText isFirefox (element env) in
  let hostWs := host BlockContentUpdatedLocally in
  let r := input host isFirefox env s in
  r.2 = Returned () (withContent (contentAfter (Some text) hostWs)
                       (written text s)) ∧
  hostCalls r.1 = [BlockContentUpdatedLocally] ∧
  domWrites r.1 = unsuppressedRenders (Some text) hostWs ∧
  (EPreventDefault ∉ r.1) ∧
  (EStopPropagation ∉ r.1).
Proof.
  intros text hostWs r. subst r. unfold input. fold text.
  rewrite setBlockContentFromInput_guarded, callHost_unguarded by done.
  cbn [fst snd content block written]. fold hostWs. split_and!.
  - done.
  - change (hostCalls (EHost ?c :: ?t)) with (c :: hostCalls t).
    by rewrite hostCalls_dom.
  - change (domWrites (EHost ?c :: ?t)) with (domWrites t).
    apply domWrites_dom.
  - intros [H|(w & H & _)%list_elem_of_fmap]%elem_of_cons; discriminate H.
  - intros [H|(w & H & _)%list_elem_of_fmap]%elem_of_cons; discriminate H.
Qed.

(** X9.  The placeholder is stable.  After an input event on an element
    that shows the placeholder the block holds the empty string, whatever
    the browser reports as its text, and when the element is inserted
    anew the placeholder is what is rendered. *)
Theorem placeholder_is_stable host isFirefox env env' s :
  onlyChildIsBR (element env) →
  host BlockContentUpdatedLocally = [] →
  runEvents host isFirefox [(env, InputEvent); (env', DidInsertElement)] s =
  ([EHost BlockContentUpdatedLocally; EDom (SetHtml "<br>")], written "" s).
Proof.
  intros Hbr Hh. cbn [runEvents handle].
  assert (getElementText isFirefox (element env) = "") as Ht.
  { unfold getElementText.
    by rewrite (proj2 (onlyChildIsBR_test (element env)) Hbr). }
  unfold input. rewrite Ht.
  rewrite setBlockContentFromInput_guarded, callHost_unguarded by done.
  rewrite Hh. reflexivity.
Qed.

Lemma placeholder_is_stable_witness :
  runEvents silentHost true
    [({| element := emptyElement;
         selection_isCollapsed := true;
         currentRangeRect := None;
         getManipulation := λ _, {| textBeforeSelection := "";
                                    textAfterSelection := "" |} |},
      InputEvent);
     (caretEnv "" "" [] None, DidInsertElement)]
    (atRest "x") =
  ([EHost BlockContentUpdatedLocally; EDom (SetHtml "<br>")],
   written "" (atRest "x")).
Proof.
  apply placeholder_is_stable.
  - exists {| nodeName := "BR" |}. split; reflexivity.
  - reflexivity.
Defined.

(** ** Content synchronisation, call after call *)

(** X10.  [lastContent] trails the content by one call.  After two calls
    in a row the block holds the second text, and [lastContent] what the
    content was when the second call began: the first text, or what the
    host made of it in its first notification.  The content from before
    the first call is forgotten; the host heard of each call. *)
Theorem setBlockContentFromInput_twice host c1 p1 c2 p2 s :
  isUpdatingBlockContent s = false →
  let hostWs := host BlockContentUpdatedLocally in
  let r := (setBlockContentFromInput host c1 p1;;
            setBlockContentFromInput host c2 p2) s in
  ∃ s',
    r.2 = Returned () s' ∧
    hostCalls r.1 = [BlockContentUpdatedLocally; BlockContentUpdatedLocally] ∧
    content (block s') = contentAfter (Some c2) hostWs ∧
    lastContent (block s') = contentAfter (Some c1) hostWs ∧
    isUpdatingBlockContent s' = false.
Proof.
  intros Hg hostWs r. subst r.
  pose proof (setBlockContentFromInput_run host c1 p1 s Hg) as H1.
  rewrite (bind_run _ _ _ _ _ _ H1).
  rewrite setBlockContentFromInput_run by done.
  cbn [fst snd]. eexists. split_and!; [reflexivity | | done..].
  rewrite !hostCalls_app, !hostCalls_dom.
  repeat change (hostCalls (EHost ?c :: ?t)) with (c :: hostCalls t).
  by rewrite !hostCalls_dom.
Qed.

Lemma setBlockContentFromInput_twice_witness :
  let r := (setBlockContentFromInput silentHost "ab" true;;
            setBlockContentFromInput silentHost "abc" true) (atRest "a") in
  ∃ s',
    r.2 = Returned () s' ∧
    hostCalls r.1 = [BlockContentUpdatedLocally; BlockContentUpdatedLocally] ∧
    content (block s') = Some "abc" ∧
    lastContent (block s') = Some "ab" ∧
    isUpdatingBlockContent s' = false.
Proof.
  apply (setBlockContentFromInput_twice silentHost "ab" true "abc" true
           (atRest "a")).
  reflexivity.
Defined.

(** ** Invariants over any sequence of events *)

Lemma emitsOnly_ret {A} P (a : A) : emitsOnly P (mret a).
Proof. intros s. constructor. Qed.

Lemma emitsOnly_emit (P : Effect → Prop) e : P e → emitsOnly P (emit e).
Proof. intros He s. by repeat constructor. Qed.

Lemma emitsOnly_gets {A} P (f : Session → A) : emitsOnly P (gets f).
Proof. intros s. constructor. Qed.

Lemma emitsOnly_modify P f : emitsOnly P (modify f).
Proof. intros s. constructor. Qed.

Lemma emitsOnly_deref {A} P (o : option A) : emitsOnly P (deref o).
Proof. destruct o; intros s; constructor. Qed.

Lemma emitsOnly_bind {A B} P (m : M A) (f : A → M B) :
  emitsOnly P m → (∀ a, emitsOnly P (f a)) → emitsOnly P (m ≫= f).
Proof.
  intros Hm Hf s. specialize (Hm s). unfold mbind, M_bind.
  destruct (m s) as [tr [a s1|e s1]]; [|done].
  specialize (Hf a s1). destruct (f a s1) as [tr' o].
  apply Forall_app. done.
Qed.

Lemma emitsOnly_when P c m : emitsOnly P m → emitsOnly P (when c m).
Proof. destruct c; [done|]. intros _. apply emitsOnly_ret. Qed.

Create HintDb markup.

#[local] Hint Resolve emitsOnly_ret emitsOnly_gets emitsOnly_modify
  emitsOnly_deref emitsOnly_when : markup.
#[local] Hint Extern 1 (emitsOnly markupFree (emit _)) =>
  apply emitsOnly_emit; exact I || reflexivity : markup.

Ltac markup :=
  repeat first
    [ solve [auto with markup]
    | match goal with
      | |- emitsOnly _ (if ?b then _ else _) => destruct b
      end
    | apply emitsOnly_bind; [|intros ?] ].

Lemma markupFree_renderBlockContent : emitsOnly markupFree renderBlockContent.
Proof. unfold renderBlockContent. markup. Qed.

Lemma markupFree_set_block_content v :
  emitsOnly markupFree (set_block_content v).
Proof.
  unfold set_block_content. pose proof markupFree_renderBlockContent. markup.
Qed.

Lemma markupFree_hostWrites ws : emitsOnly markupFree (hostWrites ws).
Proof.
  induction ws as [|v ws IH]; cbn [hostWrites].
  - apply emitsOnly_ret.
  - apply emitsOnly_bind; [apply markupFree_set_block_content | done].
Qed.

Lemma markupFree_callHost host c : emitsOnly markupFree (callHost host c).
Proof.
  unfold callHost. pose proof (markupFree_hostWrites (host c)). markup.
Qed.

Lemma markupFree_setBlockContentFromInput host c p :
  emitsOnly markupFree (setBlockContentFromInput host c p).
Proof.
  unfold setBlockContentFromInput, set_isUpdatingBlockContent,
    set_block_lastContent.
  pose proof (markupFree_set_block_content (Some c)).
  pose proof (markupFree_callHost host BlockContentUpdatedLocally).
  markup.
Qed.

#[local] Hint Resolve markupFree_renderBlockContent markupFree_callHost
  markupFree_setBlockContentFromInput : markup.

Lemma markupFree_handle host isFirefox env e :
  emitsOnly markupFree (handle host isFirefox env e).
Proof.
  destruct e as [evt| |evt|]; cbn [handle].
  - unfold keyDown, navigateLeft, navigateUp, navigateRight, navigateDown,
      backspace, newBlockAtSplit.
    cbn zeta. markup.
  - unfold input. cbn zeta. markup.
  - unfold paste. markup.
  - unfold didInsertElement. markup.
Qed.

(** X11.  No markup of the user's reaches the page.  Over any sequence
    of events, in any environments and with any host, the only HTML the
    component writes is the placeholder [<br>] - the content of a block is
    always written as text - and the only editing command it issues is
    [insertText]. *)
Theorem no_markup_is_ever_written host isFirefox evs s :
  Forall markupFree (runEvents host isFirefox evs s).1.
Proof.
  revert s. induction evs as [|[env e] evs IH]; intros s.
  - constructor.
  - cbn [runEvents fst]. apply Forall_app. split.
    + apply markupFree_handle.
    + apply IH.
Qed.

(** X12.  The flag is down between events.  Started with the flag down,
    the component has it down again after any sequence of events, whether
    the handlers returned or threw. *)
Theorem flag_is_down_between_events host isFirefox evs s :
  isUpdatingBlockContent s = false →
  isUpdatingBlockContent (runEvents host isFirefox evs s).2 = false.
Proof.
  revert s. induction evs as [|[env e] evs IH]; intros s Hg; [done|].
  cbn [runEvents snd]. apply IH.
  destruct (handlers_keep_flag_down host isFirefox env) as (Hk & Hi & Hp).
  destruct e as [evt| |evt|]; cbn [handle].
  - by apply Hk.
  - by apply Hi.
  - by apply Hp.
  - unfold didInsertElement. by rewrite renderBlockContent_unguarded.
Qed.

Lemma flag_is_down_between_events_witness :
  isUpdatingBlockContent
    (runEvents silentHost false
       [(caretEnv "hello" "" [] None, InputEvent);
        (caretEnv "hello" "" twoLines None, KeyDownEvent (keyCoded 38 false));
        (caretEnv "hel" "lo" [] None, KeyDownEvent (keyNamed "Enter" false));
        (caretEnv "hel" "" [] None,
         PasteEventOf {| clipboardData := richClipboard "p" "<p>p</p>" |})]
       (atRest "hell")).2 = false.
Proof.
  apply flag_is_down_between_events. reflexivity.
Defined.
